(** * Xenia emulator core (src/xenia/emulator.cc)

    A shallow embedding of [xe::Emulator]: subsystem set-up ([Setup]), the
    launch resolver ([LaunchPath] and its three variants), the module load
    chain ([CompleteLaunch]) and the host exception callback
    ([ExceptionCallback]).

    Collaborators that live in other translation units (the subsystems, the
    virtual file system, the kernel modules, the host debugger probe) are
    modelled at their interface: what a call returns is an input of the
    model, what a call does to the state the emulator shares with it is
    written out. *)

From Stdlib Require Import ZArith Lia Ascii String List.
From stdpp Require Import base tactics option list strings gmap.

(** ** Status codes *)

Module XStatus.
Local Open Scope Z_scope.

(** [X_STATUS] is a 32-bit unsigned integer. *)
Definition X_STATUS := Z.

(** Modelled from the spec: the status vocabulary (success, generic
    failure, feature-not-implemented, file-not-found) is declared in
    xenia/xbox.h, which is not part of this translation unit.  The values
    are the NT status codes of those names.  The proofs use only that
    success is zero, which is the convention [Setup] itself relies on in
    [if (result) return result;], and that the three failure codes are
    non-zero and pairwise distinct. *)
Definition X_STATUS_SUCCESS : X_STATUS := 0x00000000.
Definition X_STATUS_UNSUCCESSFUL : X_STATUS := 0xC0000001.
Definition X_STATUS_NOT_IMPLEMENTED : X_STATUS := 0xC0000002.
Definition X_STATUS_NO_SUCH_FILE : X_STATUS := 0xC000000F.

(** Conversion of a C++ [bool] to [X_STATUS], as in [return false;] from a
    function whose return type is [X_STATUS]. *)
Definition of_bool (b : bool) : X_STATUS := if b then 1 else 0.

(** The truth value of a status in a condition, as in [if (result)]. *)
Definition truthy (s : X_STATUS) : bool := negb (s =? 0).
End XStatus.
Export XStatus.

(** ** Wide strings *)

Module WString.
Local Open Scope Z_scope.

(** A [wchar_t] code unit and a [std::wstring]. *)
Definition wchar_t := Z.
Definition wstring := list wchar_t.

(** The wide literal [L"..."] of an ASCII text. *)
Definition L (s : string) : wstring :=
  map (fun a => Z.of_N (N_of_ascii a)) (list_ascii_of_string s).

(** [size_t] is 64 bits wide; [std::wstring::npos] is its largest value. *)
Definition size_bits : Z := 64.
Definition npos : Z := 2 ^ size_bits - 1.

(** [s.find_last_of(c)]: scanning left to right, [acc] holds the index of
    the last occurrence seen so far; [npos] when there is none. *)
Fixpoint find_last_of_from (s : wstring) (c : wchar_t) (i acc : Z) : Z :=
  match s with
  | [] => acc
  | x :: r => find_last_of_from r c (i + 1) (if x =? c then i else acc)
  end.

Definition find_last_of (s : wstring) (c : wchar_t) : Z :=
  find_last_of_from s c 0 npos.

(** [s.substr(pos)] for [pos <= s.size()]. *)
Definition substr (s : wstring) (pos : Z) : wstring := drop (Z.to_nat pos) s.

(** [a == b] on wide strings. *)
Fixpoint wstring_eqb (a b : wstring) : bool :=
  match a, b with
  | [], [] => true
  | x :: a', y :: b' => (x =? y) && wstring_eqb a' b'
  | _, _ => false
  end.

Definition dot : wchar_t := 46.
End WString.
Export WString.

(** ** Launch resolver: classification *)

Module Classify.
Local Open Scope Z_scope.

(** The three branches of [LaunchPath]. *)
Inductive Branch := StfsContainer | XexFile | DiscImage.

Global Instance Branch_eq_dec : EqDecision Branch.
Proof. solve_decision. Defined.

(** The branch [Emulator::LaunchPath] takes.  [kPathSeparator] is the
    platform's separator ([xe::kPathSeparator], declared in
    xenia/base/string.h): a backslash on Windows, a slash elsewhere. *)
Definition LaunchPath_branch (kPathSeparator : wchar_t) (path : wstring)
  : Branch :=
  let last_slash := find_last_of path kPathSeparator in
  let last_dot := find_last_of path dot in
  let last_dot := if last_dot <? last_slash then npos else last_dot in
  if last_dot =? npos then StfsContainer
  else if wstring_eqb (substr path last_dot) (L ".xex")
          || wstring_eqb (substr path last_dot) (L ".elf")
  then XexFile
  else DiscImage.

Definition slash : wchar_t := 47.
Definition backslash : wchar_t := 92.

(** The index of the last occurrence of [c] in [s], if there is one. *)
Fixpoint last_index_from (s : wstring) (c : wchar_t) (i : nat)
    (acc : option nat) : option nat :=
  match s with
  | [] => acc
  | x :: r => last_index_from r c (S i) (if x =? c then Some i else acc)
  end.

Definition last_index (s : wstring) (c : wchar_t) : option nat :=
  last_index_from s c 0 None.

(** The classification in the words of the specification: no dot, or the
    last dot before the last separator, is a container; otherwise one of
    the two module suffixes is a bare module; otherwise a disc image. *)
Definition spec_branch (kPathSeparator : wchar_t) (path : wstring)
  : Branch :=
  match last_index path dot with
  | None => StfsContainer
  | Some d =>
      if match last_index path kPathSeparator with
         | Some q => (d <? q)%nat
         | None => false
         end
      then StfsContainer
      else if wstring_eqb (drop d path) (L ".xex")
              || wstring_eqb (drop d path) (L ".elf")
      then XexFile
      else DiscImage
  end.
End Classify.
Export Classify.

(** ** Virtual file system, at its interface *)

Module Vfs.
(** The three devices the launch resolver builds, with the arguments of
    their constructors. *)
Inductive Device :=
| HostPathDevice (mount_path : string) (local_path : wstring)
                 (read_only : bool)
| DiscImageDevice (mount_path : string) (local_path : wstring)
| StfsContainerDevice (mount_path : string) (local_path : wstring).

Definition device_mount_path (d : Device) : string :=
  match d with
  | HostPathDevice m _ _ => m
  | DiscImageDevice m _ => m
  | StfsContainerDevice m _ => m
  end.

Record VirtualFileSystem := {
  devices : list Device;
  symlinks : gmap string string
}.

Definition empty_vfs : VirtualFileSystem :=
  {| devices := []; symlinks := ∅ |}.

(** Modelled from the spec: [VirtualFileSystem::RegisterDevice], defined
    in xenia/vfs/virtual_file_system.cc.  A registration that succeeds
    adds the device to the file system; one that fails leaves it as it
    was.  Whether it succeeds is decided outside this file ([ok]). *)
Definition RegisterDevice (ok : bool) (d : Device) (fs : VirtualFileSystem)
  : bool * VirtualFileSystem :=
  if ok then (true, {| devices := devices fs ++ [d];
                       symlinks := symlinks fs |})
  else (false, fs).

(** Modelled from the spec: [VirtualFileSystem::RegisterSymbolicLink],
    defined in xenia/vfs/virtual_file_system.cc, binds the alias [path] to
    [target]. *)
Definition RegisterSymbolicLink (path target : string)
    (fs : VirtualFileSystem) : VirtualFileSystem :=
  {| devices := devices fs; symlinks := <[path := target]> (symlinks fs) |}.
End Vfs.
Export Vfs.

(** ** Launch resolver and module load chain *)

Module Launch.
Local Open Scope Z_scope.

(** What the launch path lets the outside see, in order. *)
Inductive Event :=
| XELOGE (msg : string)
| XELOGI (msg : string)
| FatalError (msg : string)
| LaunchModuleCall (path : string) (result : Z).

(** The part of the kernel state the chain driver shares with the loaded
    modules: [launch_path] is [xam->loader_data().launch_path]; [guest] is
    everything else a module can change. *)
Record KernelState (G : Type) := {
  launch_path : string;
  guest : G
}.
Arguments launch_path {G} _.
Arguments guest {G} _.

Definition set_launch_path {G} (s : string) (k : KernelState G)
  : KernelState G :=
  {| launch_path := s; guest := guest k |}.

(** The emulator as the launch functions see it. *)
Record Emulator (G : Type) := {
  file_system_ : VirtualFileSystem;
  kernel_state_ : KernelState G;
  journal : list Event
}.
Arguments file_system_ {G} _.
Arguments kernel_state_ {G} _.
Arguments journal {G} _.

Definition emit {G} (ev : Event) (e : Emulator G) : Emulator G :=
  {| file_system_ := file_system_ e; kernel_state_ := kernel_state_ e;
     journal := journal e ++ [ev] |}.

Definition with_file_system {G} (fs : VirtualFileSystem) (e : Emulator G)
  : Emulator G :=
  {| file_system_ := fs; kernel_state_ := kernel_state_ e;
     journal := journal e |}.

Definition with_kernel_state {G} (k : KernelState G) (e : Emulator G)
  : Emulator G :=
  {| file_system_ := file_system_ e; kernel_state_ := k;
     journal := journal e |}.

(** The collaborators of the launch path.  The path helpers are declared
    in xenia/base/string.h; [device_Initialize] and [RegisterDevice_ok]
    say whether a device can be opened and registered; [LaunchModule] is
    [XboxkrnlModule::LaunchModule]: it runs a module, which may write the
    chaining field, and returns the module's integer result. *)
Record Host (G : Type) := {
  kPathSeparator : wchar_t;
  find_base_path : wstring -> wstring;
  find_name_from_path : wstring -> wstring;
  to_string : wstring -> string;
  device_Initialize : Device -> bool;
  RegisterDevice_ok : Device -> VirtualFileSystem -> bool;
  LaunchModule : string -> KernelState G -> Z * KernelState G
}.
Arguments kPathSeparator {G} _.
Arguments find_base_path {G} _.
Arguments find_name_from_path {G} _.
Arguments to_string {G} _.
Arguments device_Initialize {G} _.
Arguments RegisterDevice_ok {G} _.
Arguments LaunchModule {G} _.

Section WithHost.
Context {G : Type}.
Variable host : Host G.

(** One pass through the body of the [while] loop of [CompleteLaunch]:
    launch [next_module], read the chaining field, blank it.  Returns the
    next module, the launch result and the emulator after the pass. *)
Definition launch_iteration (next_module : string) (e : Emulator G)
  : string * Z * Emulator G :=
  let e := emit (XELOGI ("Launching module " +:+ next_module)) e in
  let '(result, k) := LaunchModule host next_module (kernel_state_ e) in
  let e := emit (LaunchModuleCall next_module result) e in
  let next_module := launch_path k in
  let k := set_launch_path "" k in
  (next_module, result, with_kernel_state k e).

(** The [while (next_module != "")] loop.  The loop may run for ever when
    every module asks for another one; [fuel] bounds the number of
    passes and [None] means it was not enough. *)
Fixpoint launch_loop (fuel : nat) (next_module : string) (result : Z)
    (e : Emulator G) : option (Z * Emulator G) :=
  if String.eqb next_module "" then Some (result, e)
  else match fuel with
       | O => None
       | S fuel' =>
           let '(next_module', result', e') :=
             launch_iteration next_module e in
           launch_loop fuel' next_module' result' e'
       end.

(** [Emulator::CompleteLaunch]. *)
Definition CompleteLaunch (fuel : nat) (path : wstring)
    (module_path : string) (e : Emulator G)
  : option (X_STATUS * Emulator G) :=
  let result := 0 in
  let next_module := module_path in
  match launch_loop fuel next_module result e with
  | None => None
  | Some (result, e) =>
      if result =? 0 then Some (X_STATUS_SUCCESS, e)
      else Some (X_STATUS_UNSUCCESSFUL, e)
  end.

(** [Emulator::LaunchXexFile]. *)
Definition LaunchXexFile (fuel : nat) (path : wstring) (e : Emulator G)
  : option (X_STATUS * Emulator G) :=
  let mount_path := "\Device\Harddisk0\Partition0" in
  let parent_path := find_base_path host path in
  let device := HostPathDevice mount_path parent_path true in
  if negb (device_Initialize host device) then
    Some (X_STATUS_NO_SUCH_FILE, emit (XELOGE "Unable to scan host path") e)
  else
    let '(registered, fs) :=
      RegisterDevice (RegisterDevice_ok host device (file_system_ e))
                     device (file_system_ e) in
    let e := with_file_system fs e in
    if negb registered then
      Some (X_STATUS_NO_SUCH_FILE,
            emit (XELOGE "Unable to register host path") e)
    else
      let e := with_file_system
                 (RegisterSymbolicLink "game:" mount_path
                    (file_system_ e)) e in
      let e := with_file_system
                 (RegisterSymbolicLink "d:" mount_path
                    (file_system_ e)) e in
      let file_name := find_name_from_path host path in
      let fs_path := "game:\" +:+ to_string host file_name in
      CompleteLaunch fuel path fs_path e.

(** [Emulator::LaunchDiscImage]. *)
Definition LaunchDiscImage (fuel : nat) (path : wstring) (e : Emulator G)
  : option (X_STATUS * Emulator G) :=
  let mount_path := "\Device\Cdrom0" in
  let device := DiscImageDevice mount_path path in
  if negb (device_Initialize host device) then
    Some (X_STATUS_NO_SUCH_FILE,
          emit (FatalError
            "Unable to mount disc image; file not found or corrupt.") e)
  else
    let '(registered, fs) :=
      RegisterDevice (RegisterDevice_ok host device (file_system_ e))
                     device (file_system_ e) in
    let e := with_file_system fs e in
    if negb registered then
      Some (X_STATUS_NO_SUCH_FILE,
            emit (FatalError "Unable to register disc image.") e)
    else
      let e := with_file_system
                 (RegisterSymbolicLink "game:" mount_path
                    (file_system_ e)) e in
      let e := with_file_system
                 (RegisterSymbolicLink "d:" mount_path
                    (file_system_ e)) e in
      CompleteLaunch fuel path "game:\default.xex" e.

(** [Emulator::LaunchStfsContainer]. *)
Definition LaunchStfsContainer (fuel : nat) (path : wstring)
    (e : Emulator G) : option (X_STATUS * Emulator G) :=
  let mount_path := "\Device\Cdrom0" in
  let device := StfsContainerDevice mount_path path in
  if negb (device_Initialize host device) then
    Some (X_STATUS_NO_SUCH_FILE,
          emit (FatalError
            "Unable to mount STFS container; file not found or corrupt.")
            e)
  else
    let '(registered, fs) :=
      RegisterDevice (RegisterDevice_ok host device (file_system_ e))
                     device (file_system_ e) in
    let e := with_file_system fs e in
    if negb registered then
      Some (X_STATUS_NO_SUCH_FILE,
            emit (FatalError "Unable to register STFS container.") e)
    else
      let e := with_file_system
                 (RegisterSymbolicLink "game:" mount_path
                    (file_system_ e)) e in
      let e := with_file_system
                 (RegisterSymbolicLink "d:" mount_path
                    (file_system_ e)) e in
      CompleteLaunch fuel path "game:\default.xex" e.

(** [Emulator::LaunchPath]. *)
Definition LaunchPath (fuel : nat) (path : wstring) (e : Emulator G)
  : option (X_STATUS * Emulator G) :=
  match LaunchPath_branch (kPathSeparator host) path with
  | StfsContainer => LaunchStfsContainer fuel path e
  | XexFile => LaunchXexFile fuel path e
  | DiscImage => LaunchDiscImage fuel path e
  end.
End WithHost.

(** What a journal says about module launches. *)
Definition launch_results (evs : list Event) : list Z :=
  omap (fun ev => match ev with
                  | LaunchModuleCall _ r => Some r
                  | _ => None
                  end) evs.

Definition launched_modules (evs : list Event) : list string :=
  omap (fun ev => match ev with
                  | LaunchModuleCall p _ => Some p
                  | _ => None
                  end) evs.

(** Going from [e] to [e'] has mounted [d]: the device was added to the
    file system and both aliases are bound to its mount point; nothing
    else has changed. *)
Definition mounted {G} (d : Device) (e e' : Emulator G) : Prop :=
  devices (file_system_ e') = devices (file_system_ e) ++ [d]
  /\ symlinks (file_system_ e') !! "game:" = Some (device_mount_path d)
  /\ symlinks (file_system_ e') !! "d:" = Some (device_mount_path d)
  /\ kernel_state_ e' = kernel_state_ e
  /\ journal e' = journal e.
End Launch.

(** ** Path helpers of xenia/base/string.h *)

Module PathHelpers.
Local Open Scope Z_scope.

(** Modelled from the spec: [xe::find_name_from_path], defined in
    xenia/base/string.cc, gives "the file's own name": what follows the
    last separator, the whole path when it has none. *)
Definition find_name_from_path (sep : wchar_t) (path : wstring) : wstring :=
  let pos := find_last_of path sep in
  if pos =? npos then path else substr path (pos + 1).

(** Modelled from the spec: [xe::find_base_path], defined in
    xenia/base/string.cc, gives "the parent directory of the given file":
    what precedes the last separator, nothing when the path has none. *)
Definition find_base_path (sep : wchar_t) (path : wstring) : wstring :=
  let pos := find_last_of path sep in
  if pos =? npos then [] else take (Z.to_nat pos) path.

(** Modelled from the spec: [xe::to_string], defined in
    xenia/base/string.cc, gives the same text as a narrow string; this is
    its action on one code unit.  Code units outside ASCII are out of the
    model and become a question mark. *)
Definition narrow_char (c : wchar_t) : ascii :=
  if (0 <=? c) && (c <? 128) then ascii_of_N (Z.to_N c) else "?"%char.

(** Modelled from the spec: [xe::to_string] on a whole string, one
    character for each code unit. *)
Definition to_string (w : wstring) : string :=
  string_of_list_ascii (map narrow_char w).
End PathHelpers.

(** ** Host exception callback *)

Module Exceptions.
Local Open Scope N_scope.

(** [debug::Debugger], as far as the callback looks at it. *)
Record Debugger := { is_attached : bool }.

(** [kernel::XThread], as far as the callback looks at it. *)
Record XThread := {
  can_debugger_suspend : bool;
  suspend_count : N
}.

(** Modelled from the spec: [XThread::Suspend], defined in
    xenia/kernel/xthread.cc, moves the thread to the suspended state; the
    thread counts its suspensions. *)
Definition Suspend (t : XThread) : XThread :=
  {| can_debugger_suspend := can_debugger_suspend t;
     suspend_count := suspend_count t + 1 |}.

Definition is_suspended (t : XThread) : bool := 0 <? suspend_count t.

(** What the callback does to the rest of the process, in order:
    [AcquireDirect] takes the global critical region, [ThreadSuspend] is a
    call of [Suspend] on the thread object at [ptr], [ShowMessageBox] is
    the dialog posted synchronously to the display thread. *)
Inductive Effect :=
| AcquireDirect
| ThreadSuspend (ptr : N)
| ShowMessageBox (title body : string).

(** [xe::Exception]: the faulting program counter. *)
Record Exception := { pc : N }.

(** The process as the callback sees it.  Thread objects live in [threads],
    addressed by their pointer; [object_table] is what
    [GetObjectsByType<XThread>] returns; [current_thread] is
    [XThread::GetCurrentThread()]; [foreign_debugger] is
    [debugging::IsDebuggerAttached()]; [code_base] and [total_size] are the
    code cache's [base_address()] and [total_size()]; [debugger_state] is
    what the emulator's debugger keeps for itself. *)
Record Process (D : Type) := {
  debugger : option Debugger;
  debugger_state : D;
  foreign_debugger : bool;
  code_base : N;
  total_size : N;
  object_table : list N;
  threads : gmap N XThread;
  current_thread : N;
  effects : list Effect
}.
Arguments debugger {D} _.
Arguments debugger_state {D} _.
Arguments foreign_debugger {D} _.
Arguments code_base {D} _.
Arguments total_size {D} _.
Arguments object_table {D} _.
Arguments threads {D} _.
Arguments current_thread {D} _.
Arguments effects {D} _.

Definition with_threads {D} (ts : gmap N XThread) (p : Process D)
  : Process D :=
  {| debugger := debugger p; debugger_state := debugger_state p;
     foreign_debugger := foreign_debugger p;
     code_base := code_base p; total_size := total_size p;
     object_table := object_table p; threads := ts;
     current_thread := current_thread p; effects := effects p |}.

Definition effect {D} (ev : Effect) (p : Process D) : Process D :=
  {| debugger := debugger p; debugger_state := debugger_state p;
     foreign_debugger := foreign_debugger p;
     code_base := code_base p; total_size := total_size p;
     object_table := object_table p; threads := threads p;
     current_thread := current_thread p; effects := effects p ++ [ev] |}.

(** The line feed of ["\n"]. *)
Definition newline : string := String (ascii_of_N 10) EmptyString.

(** [thread->Suspend(nullptr)] on the object at [ptr]. *)
Definition thread_Suspend {D} (ptr : N) (p : Process D) : Process D :=
  effect (ThreadSuspend ptr) (with_threads (alter Suspend ptr (threads p)) p).

(** The body of [for (auto thread : threads)]. *)
Definition suspend_other {D} (current : N) (p : Process D) (ptr : N)
  : Process D :=
  match threads p !! ptr with
  | None => p
  | Some thread =>
      if negb (can_debugger_suspend thread) then p
      else if current =? ptr then p
      else thread_Suspend ptr p
  end.

Section WithDebugger.
Context {D : Type}.

(** [addr_bits] is the width of the unsigned integer type that
    [base_address()] and [total_size()] return (declared in
    xenia/cpu/backend/code_cache.h); their sum wraps at that width.
    [OnUnhandledException] is the emulator debugger's own handler. *)
Variable addr_bits : N.
Variable OnUnhandledException : Exception -> Process D -> bool * Process D.

Definition code_end (p : Process D) : N :=
  (code_base p + total_size p) mod 2 ^ addr_bits.

(** [Emulator::ExceptionCallback].  The value is what the callback
    returns and the process it leaves behind.  On the containment path
    the faulting thread parks in its own [Suspend]; [false] is what the
    code returns if it is ever resumed.  The two assertions of that path
    are checks of debug builds and have no counterpart here. *)
Definition ExceptionCallback (ex : Exception) (p : Process D)
  : bool * Process D :=
  let code_base := code_base p in
  let code_end := code_end p in
  if match debugger p with
     | None => true
     | Some d => negb (is_attached d) && foreign_debugger p
     end
  then (false, p)
  else if match debugger p with
          | None => false
          | Some d => is_attached d
          end
  then OnUnhandledException ex p
  else if negb ((code_base <=? pc ex) && (pc ex <? code_end))
  then (false, p)
  else
    let p := effect AcquireDirect p in
    let threads := object_table p in
    let current_thread := current_thread p in
    let p := foldl (suspend_other current_thread) p threads in
    let p := effect
               (ShowMessageBox "Uh-oh!"
                  ("The guest has crashed." +:+ newline +:+ newline
                   +:+ "Xenia has now paused itself."))
               p in
    let p := thread_Suspend current_thread p in
    (false, p).
End WithDebugger.

(** The emulator's own debugger is attached. *)
Definition own_debugger_attached {D} (p : Process D) : bool :=
  match debugger p with
  | None => false
  | Some d => is_attached d
  end.

(** The program counter lies in the guest code region
    [[code_base, code_base + total_size)]. *)
Definition in_guest_code {D} (ex : Exception) (p : Process D) : Prop :=
  code_base p <= pc ex /\ pc ex < code_base p + total_size p.

(** The object at [ptr] is a thread that may be suspended and is not the
    thread [current]. *)
Definition suspendable_other (current : N) (ts : gmap N XThread) (ptr : N)
  : bool :=
  from_option can_debugger_suspend false (ts !! ptr)
  && negb (current =? ptr).

(** The dialogs among the effects. *)
Definition dialogs (evs : list Effect) : list Effect :=
  List.filter (fun ev => match ev with
                         | ShowMessageBox _ _ => true
                         | _ => false
                         end) evs.
End Exceptions.

(** ** Lifecycle orchestrator *)

Module Lifecycle.
Local Open Scope Z_scope.
Import Exceptions.

Definition Window := N.
Definition InputDriver := N.

(** The subsystems, as far as [Setup] can tell them apart: whether the
    object exists, and whether its own initialisation has succeeded. *)
Record Memory := { memory_initialized : bool }.
Record ExportResolver := { }.
Record Processor := {
  processor_debugger : option Debugger;
  processor_ready : bool
}.
Record AudioSystem := { audio_ready : bool }.
Record GraphicsSystem := { graphics_ready : bool }.
Record InputSystem := {
  input_window : option Window;
  input_drivers : list InputDriver;
  input_ready : bool
}.
Record KernelState := { kernel_modules : list string }.

(** Calls [Setup] makes on process-wide services, in order. *)
Inductive SetupEvent :=
| set_guest_tick_frequency (hz : Z)
| set_guest_system_time_base
| set_guest_time_scalar
| EnableAffinityConfiguration
| StartSession
| ExceptionHandler_Install
| PostSynchronous_set_window.

(** The members of [xe::Emulator] that [Setup] assigns. *)
Record Emulator := {
  display_window_ : option Window;
  memory_ : option Memory;
  export_resolver_ : option ExportResolver;
  debugger_ : option Debugger;
  processor_ : option Processor;
  audio_system_ : option AudioSystem;
  graphics_system_ : option GraphicsSystem;
  input_system_ : option InputSystem;
  file_system_ : option VirtualFileSystem;
  kernel_state_ : option KernelState;
  calls : list SetupEvent
}.

(** The emulator as its constructor leaves it. *)
Definition fresh : Emulator :=
  {| display_window_ := None; memory_ := None; export_resolver_ := None;
     debugger_ := None; processor_ := None; audio_system_ := None;
     graphics_system_ := None; input_system_ := None;
     file_system_ := None; kernel_state_ := None; calls := [] |}.

Definition set_display_window_ v e :=
  {| display_window_ := v; memory_ := memory_ e;
     export_resolver_ := export_resolver_ e; debugger_ := debugger_ e;
     processor_ := processor_ e; audio_system_ := audio_system_ e;
     graphics_system_ := graphics_system_ e;
     input_system_ := input_system_ e; file_system_ := file_system_ e;
     kernel_state_ := kernel_state_ e; calls := calls e |}.
Definition set_memory_ v e :=
  {| display_window_ := display_window_ e; memory_ := v;
     export_resolver_ := export_resolver_ e; debugger_ := debugger_ e;
     processor_ := processor_ e; audio_system_ := audio_system_ e;
     graphics_system_ := graphics_system_ e;
     input_system_ := input_system_ e; file_system_ := file_system_ e;
     kernel_state_ := kernel_state_ e; calls := calls e |}.
Definition set_export_resolver_ v e :=
  {| display_window_ := display_window_ e; memory_ := memory_ e;
     export_resolver_ := v; debugger_ := debugger_ e;
     processor_ := processor_ e; audio_system_ := audio_system_ e;
     graphics_system_ := graphics_system_ e;
     input_system_ := input_system_ e; file_system_ := file_system_ e;
     kernel_state_ := kernel_state_ e; calls := calls e |}.
Definition set_debugger_ v e :=
  {| display_window_ := display_window_ e; memory_ := memory_ e;
     export_resolver_ := export_resolver_ e; debugger_ := v;
     processor_ := processor_ e; audio_system_ := audio_system_ e;
     graphics_system_ := graphics_system_ e;
     input_system_ := input_system_ e; file_system_ := file_system_ e;
     kernel_state_ := kernel_state_ e; calls := calls e |}.
Definition set_processor_ v e :=
  {| display_window_ := display_window_ e; memory_ := memory_ e;
     export_resolver_ := export_resolver_ e; debugger_ := debugger_ e;
     processor_ := v; audio_system_ := audio_system_ e;
     graphics_system_ := graphics_system_ e;
     input_system_ := input_system_ e; file_system_ := file_system_ e;
     kernel_state_ := kernel_state_ e; calls := calls e |}.
Definition set_audio_system_ v e :=
  {| display_window_ := display_window_ e; memory_ := memory_ e;
     export_resolver_ := export_resolver_ e; debugger_ := debugger_ e;
     processor_ := processor_ e; audio_system_ := v;
     graphics_system_ := graphics_system_ e;
     input_system_ := input_system_ e; file_system_ := file_system_ e;
     kernel_state_ := kernel_state_ e; calls := calls e |}.
Definition set_graphics_system_ v e :=
  {| display_window_ := display_window_ e; memory_ := memory_ e;
     export_resolver_ := export_resolver_ e; debugger_ := debugger_ e;
     processor_ := processor_ e; audio_system_ := audio_system_ e;
     graphics_system_ := v;
     input_system_ := input_system_ e; file_system_ := file_system_ e;
     kernel_state_ := kernel_state_ e; calls := calls e |}.
Definition set_input_system_ v e :=
  {| display_window_ := display_window_ e; memory_ := memory_ e;
     export_resolver_ := export_resolver_ e; debugger_ := debugger_ e;
     processor_ := processor_ e; audio_system_ := audio_system_ e;
     graphics_system_ := graphics_system_ e;
     input_system_ := v; file_system_ := file_system_ e;
     kernel_state_ := kernel_state_ e; calls := calls e |}.
Definition set_file_system_ v e :=
  {| display_window_ := display_window_ e; memory_ := memory_ e;
     export_resolver_ := export_resolver_ e; debugger_ := debugger_ e;
     processor_ := processor_ e; audio_system_ := audio_system_ e;
     graphics_system_ := graphics_system_ e;
     input_system_ := input_system_ e; file_system_ := v;
     kernel_state_ := kernel_state_ e; calls := calls e |}.
Definition set_kernel_state_ v e :=
  {| display_window_ := display_window_ e; memory_ := memory_ e;
     export_resolver_ := export_resolver_ e; debugger_ := debugger_ e;
     processor_ := processor_ e; audio_system_ := audio_system_ e;
     graphics_system_ := graphics_system_ e;
     input_system_ := input_system_ e; file_system_ := file_system_ e;
     kernel_state_ := v; calls := calls e |}.
Definition add_call ev e :=
  {| display_window_ := display_window_ e; memory_ := memory_ e;
     export_resolver_ := export_resolver_ e; debugger_ := debugger_ e;
     processor_ := processor_ e; audio_system_ := audio_system_ e;
     graphics_system_ := graphics_system_ e;
     input_system_ := input_system_ e; file_system_ := file_system_ e;
     kernel_state_ := kernel_state_ e; calls := calls e ++ [ev] |}.

(** *** Statements of a member function that may [return] early *)

Inductive Flow (A : Type) :=
| Next (a : A)
| Return (status : X_STATUS).
Arguments Next {A} _.
Arguments Return {A} _.

Definition Run (A : Type) : Type := Emulator -> Flow A * Emulator.

Global Instance Run_ret : MRet Run := fun A a e => (Next a, e).
Global Instance Run_bind : MBind Run := fun A B f m e =>
  match m e with
  | (Next a, e') => f a e'
  | (Return s, e') => (Return s, e')
  end.

Definition return_ {A} (s : X_STATUS) : Run A := fun e => (Return s, e).
Definition assign (f : Emulator -> Emulator) : Run unit :=
  fun e => (Next tt, f e).
Definition read {A} (f : Emulator -> A) : Run A := fun e => (Next (f e), e).
Definition call (ev : SetupEvent) : Run unit := assign (add_call ev).

(** The status a member function returns, and the emulator it leaves. *)
Definition run (m : Run X_STATUS) (e : Emulator) : X_STATUS * Emulator :=
  match m e with
  | (Next s, e') => (s, e')
  | (Return s, e') => (s, e')
  end.

(** What the collaborators answer during [Setup]: the [--debug] flag, and
    the result of each subsystem's own initialisation. *)
Record Outcomes := {
  FLAGS_debug : bool;
  Memory_Initialize : bool;
  Processor_Setup : bool;
  InputSystem_Setup : X_STATUS;
  GraphicsSystem_Setup : X_STATUS;
  AudioSystem_Setup : X_STATUS
}.

(** [memory_->Initialize()] *)
Definition initialize_memory (ok : bool) : Run bool := fun e =>
  (Next ok,
   set_memory_ ((fun _ => {| memory_initialized := ok |}) <$> memory_ e) e).

(** [processor_->Setup()] *)
Definition setup_processor (ok : bool) : Run bool := fun e =>
  (Next ok,
   set_processor_
     ((fun p => {| processor_debugger := processor_debugger p;
                   processor_ready := ok |}) <$> processor_ e) e).

(** [input_system_->AddDriver(...)] *)
Definition add_driver (d : InputDriver) : Run unit :=
  assign (fun e =>
    set_input_system_
      ((fun i => {| input_window := input_window i;
                    input_drivers := input_drivers i ++ [d];
                    input_ready := input_ready i |}) <$> input_system_ e)
      e).

(** [for (size_t i = 0; i < input_drivers.size(); ++i) AddDriver(...)] *)
Fixpoint add_drivers (ds : list InputDriver) : Run unit :=
  match ds with
  | [] => mret tt
  | d :: ds' => add_driver d;; add_drivers ds'
  end.

(** [input_system_->Setup()] *)
Definition setup_input (st : X_STATUS) : Run X_STATUS := fun e =>
  (Next st,
   set_input_system_
     ((fun i => {| input_window := input_window i;
                   input_drivers := input_drivers i;
                   input_ready := st =? 0 |}) <$> input_system_ e) e).

(** [graphics_system_->Setup(...)] *)
Definition setup_graphics (st : X_STATUS) : Run X_STATUS := fun e =>
  (Next st,
   set_graphics_system_
     ((fun _ => {| graphics_ready := st =? 0 |}) <$> graphics_system_ e) e).

(** [audio_system_->Setup(...)] *)
Definition setup_audio (st : X_STATUS) : Run X_STATUS := fun e =>
  (Next st,
   set_audio_system_
     ((fun _ => {| audio_ready := st =? 0 |}) <$> audio_system_ e) e).

(** [kernel_state_->LoadKernelModule<...>()] *)
Definition LoadKernelModule (name : string) : Run unit :=
  assign (fun e =>
    set_kernel_state_
      ((fun k => {| kernel_modules := kernel_modules k ++ [name] |})
         <$> kernel_state_ e) e).

(** [Emulator::Setup].  A factory that is an empty [std::function] is
    [None]; a factory that returns a null pointer returns [None]. *)
Definition Setup (o : Outcomes) (display_window : Window)
    (audio_system_factory : option (option Processor -> option AudioSystem))
    (graphics_system_factory : unit -> option GraphicsSystem)
    (input_driver_factory : option (option Window -> list InputDriver))
  : Run X_STATUS :=
  let result := X_STATUS_UNSUCCESSFUL in
  assign (set_display_window_ (Some display_window));;
  call (set_guest_tick_frequency 50000000);;
  call set_guest_system_time_base;;
  call set_guest_time_scalar;;
  call EnableAffinityConfiguration;;
  assign (set_memory_ (Some {| memory_initialized := false |}));;
  ok ← initialize_memory (Memory_Initialize o);
  if negb ok then return_ (of_bool false) else
  assign (set_export_resolver_ (Some Build_ExportResolver));;
  (if FLAGS_debug o then
     assign (set_debugger_ (Some {| is_attached := false |}));;
     call StartSession
   else mret tt);;
  dbg ← read debugger_;
  assign (set_processor_
            (Some {| processor_debugger := dbg;
                     processor_ready := false |}));;
  ok ← setup_processor (Processor_Setup o);
  if negb ok then return_ X_STATUS_UNSUCCESSFUL else
  audio_failed ←
    match audio_system_factory with
    | Some factory =>
        proc ← read processor_;
        assign (set_audio_system_ (factory proc));;
        audio ← read audio_system_;
        mret (negb (bool_decide (is_Some audio)))
    | None => mret false
    end;
  if audio_failed : bool then return_ X_STATUS_NOT_IMPLEMENTED else
  assign (set_graphics_system_ (graphics_system_factory tt));;
  graphics ← read graphics_system_;
  if negb (bool_decide (is_Some graphics))
  then return_ X_STATUS_NOT_IMPLEMENTED else
  window ← read display_window_;
  assign (set_input_system_
            (Some {| input_window := window; input_drivers := [];
                     input_ready := false |}));;
  input ← read input_system_;
  if negb (bool_decide (is_Some input))
  then return_ X_STATUS_NOT_IMPLEMENTED else
  match input_driver_factory with
  | Some factory => add_drivers (factory window)
  | None => mret tt
  end;;
  result ← setup_input (InputSystem_Setup o);
  if truthy result then return_ result else
  assign (set_file_system_ (Some empty_vfs));;
  assign (set_kernel_state_ (Some {| kernel_modules := [] |}));;
  result ← setup_graphics (GraphicsSystem_Setup o);
  if truthy result then return_ result else
  audio ← read audio_system_;
  audio_result ←
    (if bool_decide (is_Some audio)
     then setup_audio (AudioSystem_Setup o)
     else mret result);
  if bool_decide (is_Some audio) && truthy audio_result
  then return_ audio_result else
  let result := audio_result in
  LoadKernelModule "xboxkrnl.exe";;
  LoadKernelModule "xam.xex";;
  call ExceptionHandler_Install;;
  call PostSynchronous_set_window;;
  return_ result.

(** Every owned subsystem exists and its initialisation has succeeded; the
    audio system is looked at only when a factory for it was supplied, and
    the debugger not at all. *)
Definition subsystems_ready (audio_supplied : bool) (e : Emulator) : bool :=
  from_option memory_initialized false (memory_ e)
  && bool_decide (is_Some (export_resolver_ e))
  && from_option processor_ready false (processor_ e)
  && from_option graphics_ready false (graphics_system_ e)
  && from_option input_ready false (input_system_ e)
  && bool_decide (is_Some (file_system_ e))
  && bool_decide (is_Some (kernel_state_ e))
  && (negb audio_supplied
      || from_option audio_ready false (audio_system_ e)).

(** [wp m e Q]: running [m] from [e] ends, by falling through or by
    [return], in a flow and an emulator that satisfy [Q]. *)
Definition wp {A} (m : Run A) (e : Emulator)
    (Q : Flow A -> Emulator -> Prop) : Prop :=
  Q (fst (m e)) (snd (m e)).
End Lifecycle.

(** ** Teardown *)

Module Teardown.
Import Lifecycle.

(** The members the destructor releases by hand, named after the fields. *)
Inductive Member :=
| M_input_system
| M_graphics_system
| M_audio_system
| M_kernel_state
| M_file_system
| M_processor
| M_debugger
| M_export_resolver.

Global Instance Member_eq_dec : EqDecision Member.
Proof. solve_decision. Defined.

(** What the destructor does to the rest of the process, in order:
    [StopSession] is [debugger_->StopSession()], [Shutdown m] is the
    [Shutdown()] of the graphics or audio system, [Released m] is the
    destruction of the object a [reset()] lets go of, and
    [ExceptionHandler_Uninstall] removes the process-wide hook. *)
Inductive TeardownEvent :=
| StopSession
| Shutdown (m : Member)
| Released (m : Member)
| ExceptionHandler_Uninstall.

Global Instance TeardownEvent_eq_dec : EqDecision TeardownEvent.
Proof. solve_decision. Defined.

Definition note (ev : TeardownEvent) (s : Emulator * list TeardownEvent)
  : Emulator * list TeardownEvent :=
  (fst s, snd s ++ [ev]).

(** [if (member) tell it], for [StopSession] and [Shutdown]. *)
Definition tell {A} (member : Emulator -> option A) (ev : TeardownEvent)
    (s : Emulator * list TeardownEvent) : Emulator * list TeardownEvent :=
  if bool_decide (is_Some (member (fst s))) then note ev s else s.

(** [member.reset()]: an object that exists is destroyed and the pointer
    becomes null; a null pointer stays as it is. *)
Definition reset {A} (member : Emulator -> option A)
    (set : option A -> Emulator -> Emulator) (m : Member)
    (s : Emulator * list TeardownEvent) : Emulator * list TeardownEvent :=
  match member (fst s) with
  | Some _ => (set None (fst s), snd s ++ [Released m])
  | None => s
  end.

(** [Emulator::~Emulator], the statements of its body.  The members the
    body does not reset ([memory_] among them) are destroyed afterwards by
    the compiler-generated part, in the order of the class declaration,
    which is not in this file. *)
Definition Emulator_destructor (e : Emulator)
  : Emulator * list TeardownEvent :=
  let s := (e, []) in
  let s := tell debugger_ StopSession s in
  let s := tell graphics_system_ (Shutdown M_graphics_system) s in
  let s := tell audio_system_ (Shutdown M_audio_system) s in
  let s := reset input_system_ set_input_system_ M_input_system s in
  let s := reset graphics_system_ set_graphics_system_ M_graphics_system s in
  let s := reset audio_system_ set_audio_system_ M_audio_system s in
  let s := reset kernel_state_ set_kernel_state_ M_kernel_state s in
  let s := reset file_system_ set_file_system_ M_file_system s in
  let s := reset processor_ set_processor_ M_processor s in
  let s := reset debugger_ set_debugger_ M_debugger s in
  let s := reset export_resolver_ set_export_resolver_ M_export_resolver s in
  note ExceptionHandler_Uninstall s.

(** [given_to user used]: [Setup] hands the object [used] to the object
    [user]: the processor is built from the export resolver and the
    debugger, the audio factory receives the processor, and the set-up of
    the graphics and audio systems receives the kernel state (the graphics
    one the processor as well). *)
Definition given_to (user used : Member) : bool :=
  match user, used with
  | M_processor, M_export_resolver
  | M_processor, M_debugger
  | M_audio_system, M_processor
  | M_audio_system, M_kernel_state
  | M_graphics_system, M_processor
  | M_graphics_system, M_kernel_state => true
  | _, _ => false
  end.

(** The member [m] of [e] holds an object. *)
Definition alive (e : Emulator) (m : Member) : bool :=
  match m with
  | M_input_system => bool_decide (is_Some (input_system_ e))
  | M_graphics_system => bool_decide (is_Some (graphics_system_ e))
  | M_audio_system => bool_decide (is_Some (audio_system_ e))
  | M_kernel_state => bool_decide (is_Some (kernel_state_ e))
  | M_file_system => bool_decide (is_Some (file_system_ e))
  | M_processor => bool_decide (is_Some (processor_ e))
  | M_debugger => bool_decide (is_Some (debugger_ e))
  | M_export_resolver => bool_decide (is_Some (export_resolver_ e))
  end.

(** In [l], nothing equal to [later] comes after an occurrence of
    [earlier]. *)
Fixpoint never_after (earlier later : TeardownEvent)
    (l : list TeardownEvent) : bool :=
  match l with
  | [] => true
  | x :: r =>
      (if decide (x = earlier) then negb (bool_decide (later ∈ r)) else true)
      && never_after earlier later r
  end.
End Teardown.

(** ** The journal of a chain of launches *)

Module LaunchJournal.
Import Launch.

(** The journal entries of a chain of launches, given each module launched
    and its result: the log line of [XELOGI], then the launch. *)
Definition announced (runs : list (string * Z)) : list Event :=
  flat_map (fun run => [XELOGI ("Launching module " +:+ fst run);
                        LaunchModuleCall (fst run) (snd run)]) runs.
End LaunchJournal.

(** ** The calls a chain of launches is made of *)

Module LaunchChain.
Import Launch.
Local Open Scope Z_scope.

Section WithHost.
Context {G : Type}.
Variable host : Host G.

(** One call of [xboxkrnl->LaunchModule]: the module launched and the
    kernel state it is launched in. *)
Definition Call : Type := string * KernelState G.

(** What the call returns, the kernel state it leaves, and what is then
    found in the chaining field: the module's request, if it is not
    empty. *)
Definition returned (c : Call) : Z := fst (LaunchModule host c.1 c.2).
Definition left_behind (c : Call) : KernelState G :=
  snd (LaunchModule host c.1 c.2).
Definition requested (c : Call) : string := launch_path (left_behind c).

(** [chain c rest]: the calls [c :: rest] follow one another by request.
    Every call but the last returns with a request in the chaining field,
    and the next call launches the module requested, in the state the
    earlier call left but for the field, which is blank; the last call
    returns with the field empty.  There are [length rest] requests. *)
Fixpoint chain (c : Call) (rest : list Call) : Prop :=
  match rest with
  | [] => requested c = ""
  | c' :: rest' =>
      requested c <> ""
      /\ c' = (requested c, set_launch_path "" (left_behind c))
      /\ chain c' rest'
  end.

(** The last call of [c :: rest]. *)
Definition last_call (c : Call) (rest : list Call) : Call :=
  List.last rest c.

(** Each module called, with what its call returned. *)
Definition outcomes (calls : list Call) : list (string * Z) :=
  map (fun c => (c.1, returned c)) calls.

(** The emulator after the calls [c :: rest]: the journal has each launch
    after its log line, and the kernel state is the one the last call
    left, with the chaining field blank. *)
Definition after_calls (e : Emulator G) (c : Call) (rest : list Call)
  : Emulator G :=
  {| file_system_ := file_system_ e;
     kernel_state_ := set_launch_path "" (left_behind (last_call c rest));
     journal := journal e ++ LaunchJournal.announced (outcomes (c :: rest)) |}.
End WithHost.
Arguments Call G : clear implicits.
End LaunchChain.

(** ** Concrete inputs used in the examples below *)

Module Scenarios.
Import Lifecycle.
Local Open Scope Z_scope.

(** Every collaborator succeeds, except that memory cannot be
    initialised. *)
Definition memory_fails : Outcomes :=
  {| FLAGS_debug := false; Memory_Initialize := false;
     Processor_Setup := true; InputSystem_Setup := X_STATUS_SUCCESS;
     GraphicsSystem_Setup := X_STATUS_SUCCESS;
     AudioSystem_Setup := X_STATUS_SUCCESS |}.

(** Every collaborator succeeds. *)
Definition all_succeed : Outcomes :=
  {| FLAGS_debug := false; Memory_Initialize := true;
     Processor_Setup := true; InputSystem_Setup := X_STATUS_SUCCESS;
     GraphicsSystem_Setup := X_STATUS_SUCCESS;
     AudioSystem_Setup := X_STATUS_SUCCESS |}.

Definition the_window : Window := 1%N.

Definition audio_factory : option Processor -> option AudioSystem :=
  fun _ => Some {| audio_ready := false |}.
Definition graphics_factory : unit -> option GraphicsSystem :=
  fun _ => Some {| graphics_ready := false |}.
Definition driver_factory : option Window -> list InputDriver :=
  fun _ => [7%N; 8%N].

(** A process with three guest thread objects, of which the third may not
    be suspended; the first is the one that faults. *)
Import Exceptions.

Definition guest_threads : gmap N XThread :=
  {[ 10%N := {| can_debugger_suspend := true; suspend_count := 0 |};
     11%N := {| can_debugger_suspend := true; suspend_count := 0 |};
     12%N := {| can_debugger_suspend := false; suspend_count := 0 |} ]}.

Definition process_with (d : option Debugger) : Process unit :=
  {| debugger := d; debugger_state := tt; foreign_debugger := false;
     code_base := 0xA0000000; total_size := 0x0FFFFFFF;
     object_table := [10%N; 11%N; 12%N]; threads := guest_threads;
     current_thread := 10%N; effects := [] |}.

(** Started without [--debug]: there is no debugger object. *)
Definition process_no_debugger : Process unit := process_with None.

(** Started with [--debug], no client attached. *)
Definition process_debugger_idle : Process unit :=
  process_with (Some {| is_attached := false |}).

Definition guest_fault : Exception := {| pc := 0xA0001000 |}.
Definition host_fault : Exception := {| pc := 0x00401000 |}.

Definition debugger_declines
  : Exception -> Process unit -> bool * Process unit :=
  fun _ p => (false, p).
End Scenarios.

Module LaunchScenarios.
Import Launch.
Local Open Scope Z_scope.

(** A guest whose modules follow a script: each launch takes the next
    entry, returns its result and writes its request to the chaining
    field; an empty request is no request.  When the script is over a
    module returns zero and asks for nothing. *)
Definition Script := list (Z * string).

Definition scripted_LaunchModule (path : string) (k : KernelState Script)
  : Z * KernelState Script :=
  match guest k with
  | [] => (0, {| launch_path := ""; guest := [] |})
  | (r, next) :: rest => (r, {| launch_path := next; guest := rest |})
  end.

(** A host with slash-separated paths on which opening and registering a
    device succeed or fail as told. *)
Definition scripted_host (init_ok reg_ok : bool) : Host Script :=
  {| kPathSeparator := slash;
     find_base_path := PathHelpers.find_base_path slash;
     find_name_from_path := PathHelpers.find_name_from_path slash;
     to_string := PathHelpers.to_string;
     device_Initialize := fun _ => init_ok;
     RegisterDevice_ok := fun _ _ => reg_ok;
     LaunchModule := scripted_LaunchModule |}.

(** The emulator before any launch, with the guest's script. *)
Definition boot (script : Script) : Emulator Script :=
  {| file_system_ := empty_vfs;
     kernel_state_ := {| launch_path := ""; guest := script |};
     journal := [] |}.

(** An updater that fails and redirects to the patched title, which
    succeeds. *)
Definition updater_then_title : Script :=
  [(1, "game:\title.xex"); (0, "")].
End LaunchScenarios.

Module MoreScenarios.
Import Exceptions Lifecycle Scenarios.
Local Open Scope Z_scope.

(** The processor cannot be set up. *)
Definition processor_fails : Outcomes :=
  {| FLAGS_debug := false; Memory_Initialize := true;
     Processor_Setup := false; InputSystem_Setup := X_STATUS_SUCCESS;
     GraphicsSystem_Setup := X_STATUS_SUCCESS;
     AudioSystem_Setup := X_STATUS_SUCCESS |}.

(** The input system cannot be set up. *)
Definition input_fails : Outcomes :=
  {| FLAGS_debug := false; Memory_Initialize := true;
     Processor_Setup := true; InputSystem_Setup := X_STATUS_UNSUCCESSFUL;
     GraphicsSystem_Setup := X_STATUS_SUCCESS;
     AudioSystem_Setup := X_STATUS_SUCCESS |}.

(** Every collaborator succeeds, with the debug flag set. *)
Definition all_succeed_debug : Outcomes :=
  {| FLAGS_debug := true; Memory_Initialize := true;
     Processor_Setup := true; InputSystem_Setup := X_STATUS_SUCCESS;
     GraphicsSystem_Setup := X_STATUS_SUCCESS;
     AudioSystem_Setup := X_STATUS_SUCCESS |}.

(** A graphics factory that has no backend to offer. *)
Definition no_graphics : unit -> option GraphicsSystem := fun _ => None.

(** The emulator after a [Setup] in which everything succeeds. *)
Definition fully_built : Emulator :=
  snd (run (Setup all_succeed the_window (Some audio_factory)
              graphics_factory (Some driver_factory)) fresh).

(** A process like [process_with] whose table lists the second thread
    twice. *)
Definition process_listed_twice : Process unit :=
  {| debugger := Some {| is_attached := false |}; debugger_state := tt;
     foreign_debugger := false;
     code_base := 0xA0000000%N; total_size := 0x0FFFFFFF%N;
     object_table := [11%N; 12%N; 11%N]; threads := guest_threads;
     current_thread := 10%N; effects := [] |}.

(** A process with the emulator's debugger idle and a foreign debugger
    attached. *)
Definition process_foreign_debugger : Process unit :=
  {| debugger := Some {| is_attached := false |}; debugger_state := tt;
     foreign_debugger := true;
     code_base := 0xA0000000%N; total_size := 0x0FFFFFFF%N;
     object_table := [10%N; 11%N; 12%N]; threads := guest_threads;
     current_thread := 10%N; effects := [] |}.

(** A process with the emulator's debugger attached. *)
Definition process_debugger_attached : Process unit :=
  {| debugger := Some {| is_attached := true |}; debugger_state := tt;
     foreign_debugger := true;
     code_base := 0xA0000000%N; total_size := 0x0FFFFFFF%N;
     object_table := [10%N; 11%N; 12%N]; threads := guest_threads;
     current_thread := 10%N; effects := [] |}.

(** A debugger that handles every exception. *)
Definition debugger_handles
  : Exception -> Process unit -> bool * Process unit :=
  fun _ p => (true, p).
End MoreScenarios.

Module MoreLaunchScenarios.
Import Launch LaunchScenarios.
Local Open Scope Z_scope.

(** A module that asks to be started again each time it runs. *)
Definition restarting_LaunchModule (path : string) (k : KernelState Script)
  : Z * KernelState Script :=
  (0, set_launch_path "game:\default.xex" k).

Definition restarting_host : Host Script :=
  {| kPathSeparator := slash;
     find_base_path := PathHelpers.find_base_path slash;
     find_name_from_path := PathHelpers.find_name_from_path slash;
     to_string := PathHelpers.to_string;
     device_Initialize := fun _ => true;
     RegisterDevice_ok := fun _ _ => true;
     LaunchModule := restarting_LaunchModule |}.

(** Modules that return zero and never write the chaining field. *)
Definition silent_LaunchModule (path : string) (k : KernelState Script)
  : Z * KernelState Script :=
  (0, k).

Definition silent_host : Host Script :=
  {| kPathSeparator := slash;
     find_base_path := PathHelpers.find_base_path slash;
     find_name_from_path := PathHelpers.find_name_from_path slash;
     to_string := PathHelpers.to_string;
     device_Initialize := fun _ => true;
     RegisterDevice_ok := fun _ _ => true;
     LaunchModule := silent_LaunchModule |}.

(** The emulator with a request already waiting in the chaining field. *)
Definition boot_with_request (request : string) : Emulator Script :=
  {| file_system_ := empty_vfs;
     kernel_state_ := {| launch_path := request; guest := [] |};
     journal := [] |}.

(** An updater that fails and hands over to the title each time it is
    launched, whatever the state of the guest; every other module returns
    zero and leaves the chaining field as it found it. *)
Definition handover_LaunchModule (path : string) (k : KernelState Script)
  : Z * KernelState Script :=
  if String.eqb path "game:\default.xex"
  then (1, set_launch_path "game:\title.xex" k)
  else (0, k).

Definition handover_host : Host Script :=
  {| kPathSeparator := slash;
     find_base_path := PathHelpers.find_base_path slash;
     find_name_from_path := PathHelpers.find_name_from_path slash;
     to_string := PathHelpers.to_string;
     device_Initialize := fun _ => true;
     RegisterDevice_ok := fun _ _ => true;
     LaunchModule := handover_LaunchModule |}.
End MoreLaunchScenarios.

(** * Properties *)

(** ** Lifecycle orchestrator *)

Module LifecycleFacts.
Import Lifecycle Scenarios.
Local Open Scope Z_scope.

(** The value of [false] as a status is the success status. *)
Lemma success_is_false : X_STATUS_SUCCESS = of_bool false.
Proof. reflexivity. Qed.

(** Adding drivers touches the input system only. *)
Lemma add_drivers_spec ds e :
  add_drivers ds e =
  (Next tt,
   set_input_system_
     ((fun i => {| input_window := input_window i;
                   input_drivers := input_drivers i ++ ds;
                   input_ready := input_ready i |}) <$> input_system_ e) e).
Proof.
  revert e. induction ds as [|d ds IH]; intros e.
  - destruct e as [? ? ? ? ? ? ? [[? ? ?]|] ? ? ?]; simpl;
      unfold mret, Run_ret, set_input_system_; simpl;
      rewrite ?app_nil_r; reflexivity.
  - simpl. unfold mbind, Run_bind, add_driver, assign. rewrite IH.
    destruct e as [? ? ? ? ? ? ? [[? ? ?]|] ? ? ?]; simpl;
      unfold set_input_system_; simpl; rewrite <- ?app_assoc; reflexivity.
Qed.

(** When memory cannot be initialised, [Setup] stops right after the
    attempt: only the display window, the clock, the affinity switch and
    the memory object have been touched, and the value returned is that of
    [false]. *)
Lemma Setup_memory_failure o w af gf idf e :
  Memory_Initialize o = false ->
  run (Setup o w af gf idf) e =
  (of_bool false,
   set_memory_ (Some {| memory_initialized := false |})
     (add_call EnableAffinityConfiguration
        (add_call set_guest_time_scalar
           (add_call set_guest_system_time_base
              (add_call (set_guest_tick_frequency 50000000)
                 (set_display_window_ (Some w) e)))))).
Proof.
  intros Hm. unfold run, Setup, mbind, Run_bind, assign, call, assign,
    initialize_memory, return_. simpl. rewrite Hm. simpl. reflexivity.
Qed.

(** Without the [--debug] flag, [Setup] creates no debugger. *)
Lemma Setup_no_debug_flag o w af gf idf e :
  FLAGS_debug o = false -> debugger_ e = None ->
  debugger_ (snd (run (Setup o w af gf idf) e)) = None.
Proof.
  intros Hf Hd.
  unfold run, Setup, mbind, Run_bind, assign, call, assign, read, return_,
    initialize_memory, setup_processor, setup_input, setup_graphics,
    setup_audio, LoadKernelModule, mret, Run_ret.
  simpl. rewrite Hf.
  destruct (Memory_Initialize o); simpl; [|exact Hd].
  destruct (Processor_Setup o); simpl; [|exact Hd].
  destruct af as [f|]; simpl.
  - destruct (f _) as [a|]; simpl; [|exact Hd].
    destruct (gf tt) as [g|]; simpl; [|exact Hd].
    destruct idf as [df|]; simpl; rewrite ?add_drivers_spec; simpl;
      destruct (truthy (InputSystem_Setup o)); simpl; try exact Hd;
      destruct (truthy (GraphicsSystem_Setup o)); simpl; try exact Hd;
      destruct (truthy (AudioSystem_Setup o)); simpl; exact Hd.
  - destruct (gf tt) as [g|]; simpl; [|exact Hd].
    destruct idf as [df|]; simpl; rewrite ?add_drivers_spec; simpl;
      destruct (truthy (InputSystem_Setup o)); simpl; try exact Hd;
      destruct (truthy (GraphicsSystem_Setup o)); simpl; try exact Hd;
      destruct (audio_system_ e); simpl; try exact Hd;
      destruct (truthy (AudioSystem_Setup o)); simpl; exact Hd.
Qed.

Lemma truthy_false st : truthy st = false -> (st =? 0) = true.
Proof. unfold truthy. destruct (st =? 0); [reflexivity | discriminate]. Qed.

Lemma truthy_true_nonzero st : truthy st = true -> st <> X_STATUS_SUCCESS.
Proof.
  unfold truthy, X_STATUS_SUCCESS. destruct (Z.eqb_spec st 0);
    [discriminate | auto].
Qed.

Lemma wp_bind {A B} (m : Run A) (k : A -> Run B) e Q :
  wp m e (fun fl e' => match fl with
                       | Next a => wp (k a) e' Q
                       | Return s => Q (Return s) e'
                       end) ->
  wp (m ≫= k) e Q.
Proof. unfold wp, mbind, Run_bind. destruct (m e) as [[a|s] e']; auto. Qed.

Lemma wp_pure {A} (m : Run A) e a e1 (Q : Flow A -> Emulator -> Prop) :
  m e = (Next a, e1) -> Q (Next a) e1 -> wp m e Q.
Proof. unfold wp. intros ->. auto. Qed.

Lemma wp_bind_next {A B} (m : Run A) (k : A -> Run B) e a e1 Q :
  m e = (Next a, e1) -> wp (k a) e1 Q -> wp (m ≫= k) e Q.
Proof. unfold wp, mbind, Run_bind. intros ->. auto. Qed.

Lemma wp_return {A} s e (Q : Flow A -> Emulator -> Prop) :
  Q (Return s) e -> wp (return_ s) e Q.
Proof. auto. Qed.

Lemma run_wp (m : Run X_STATUS) e (P : X_STATUS -> Emulator -> Prop) :
  wp m e (fun fl e' => P (match fl with Next s => s | Return s => s end) e')
  -> P (fst (run m e)) (snd (run m e)).
Proof. unfold wp, run. destruct (m e) as [[s|s] e']; auto. Qed.

Lemma is_Some_Some_true {A} (x : A) : bool_decide (is_Some (Some x)) = true.
Proof. reflexivity. Qed.

Lemma is_Some_None_false {A} : bool_decide (is_Some (@None A)) = false.
Proof. reflexivity. Qed.

Local Ltac norm_state :=
  lazymatch goal with
  | |- wp ?m ?st ?Q =>
      let st' := eval cbv [set_display_window_ set_memory_
        set_export_resolver_ set_debugger_ set_processor_
        set_audio_system_ set_graphics_system_ set_input_system_
        set_file_system_ set_kernel_state_ add_call
        display_window_ memory_ export_resolver_ debugger_ processor_
        audio_system_ graphics_system_ input_system_ file_system_
        kernel_state_ calls fmap option_fmap option_map
        processor_debugger input_window input_drivers input_ready
        kernel_modules] in st in
      change (wp m st' Q)
  end.

Local Ltac norm_reads :=
  cbn [display_window_ memory_ export_resolver_ debugger_ processor_
       audio_system_ graphics_system_ input_system_ file_system_
       kernel_state_ calls].

Local Ltac wp_next :=
  eapply wp_bind_next; [reflexivity|]; cbv beta; norm_state; norm_reads.

Local Ltac wp_last :=
  eapply wp_pure; [reflexivity|]; cbv beta iota; try norm_state;
  norm_reads.


Local Ltac wp_fail :=
  apply wp_return; cbv beta iota; intros Hret; exfalso; revert Hret;
  first [ discriminate | apply truthy_true_nonzero; assumption ].

Local Ltac status_split st :=
  let H := fresh "Hst" in
  destruct (truthy st) eqn:H; [wp_fail | apply truthy_false in H].

(** X1 Past the memory check, a [Setup] that returns the success status has
    built and initialised every subsystem. *)
Lemma Setup_success_ready o w af gf idf e :
  Memory_Initialize o = true ->
  fst (run (Setup o w af gf idf) e) = X_STATUS_SUCCESS ->
  subsystems_ready (bool_decide (is_Some af))
    (snd (run (Setup o w af gf idf) e)) = true.
Proof.
  intros Hm.
  apply (run_wp _ e (fun s e' => s = X_STATUS_SUCCESS ->
           subsystems_ready (bool_decide (is_Some af)) e' = true)).
  destruct e as [dw me er de pr au gr inp fs ks cs].
  unfold Setup. do 7 wp_next. rewrite Hm. cbv [negb]. wp_next.
  apply wp_bind.
  destruct (FLAGS_debug o); [wp_next; wp_last | wp_last].
  all: do 3 wp_next.
  all: destruct (Processor_Setup o); cbv [negb]; [|wp_fail].
  all: apply wp_bind.
  all: destruct af as [f|]; [do 3 wp_next; wp_last | wp_last].
  all: try (destruct (f _) as [a|];
            rewrite ?is_Some_Some_true, ?is_Some_None_false;
            cbv iota; [|wp_fail]).
  all: do 2 wp_next.
  all: destruct (gf tt) as [g|];
       rewrite ?is_Some_Some_true, ?is_Some_None_false;
       cbv iota; [|wp_fail].
  all: do 3 wp_next.
  all: rewrite ?is_Some_Some_true; cbv iota.
  all: apply wp_bind.
  all: destruct idf as [df|];
       [eapply wp_pure; [apply add_drivers_spec|]; cbv beta iota;
        norm_state; norm_reads
       | wp_last].
  all: wp_next.
  all: status_split (InputSystem_Setup o).
  all: do 3 wp_next.
  all: status_split (GraphicsSystem_Setup o).
  all: wp_next.
  all: apply wp_bind.
  all: try (destruct au as [a0|]).
  all: rewrite ?is_Some_Some_true, ?is_Some_None_false; cbv iota.
  all: wp_last.
  all: rewrite ?is_Some_Some_true, ?is_Some_None_false; cbn [andb].
  all: try status_split (AudioSystem_Setup o).
  all: do 4 wp_next.
  all: apply wp_return; intros _.
  all: cbv [subsystems_ready from_option memory_ export_resolver_
            processor_ graphics_system_ input_system_ file_system_
            kernel_state_ audio_system_ memory_initialized processor_ready
            graphics_ready input_ready audio_ready].
  all: rewrite ?Hst, ?Hst0, ?Hst1, ?is_Some_Some_true.
  all: reflexivity.
Qed.

(** C3 [Setup], memory initialisation fails: the function stops at once,
    but the value it returns is that of [false], which is the success
    status and not the generic unsuccessful one.  The processor was never
    built, so the run did stop at the memory check. *)
Theorem Setup_memory_failure_returns_success :
  fst (run (Setup memory_fails the_window (Some audio_factory)
              graphics_factory (Some driver_factory)) fresh)
    = X_STATUS_SUCCESS
  /\ fst (run (Setup memory_fails the_window (Some audio_factory)
                 graphics_factory (Some driver_factory)) fresh)
    <> X_STATUS_UNSUCCESSFUL
  /\ processor_ (snd (run (Setup memory_fails the_window
                             (Some audio_factory) graphics_factory
                             (Some driver_factory)) fresh)) = None.
Proof.
  rewrite Setup_memory_failure by reflexivity. simpl.
  repeat split. discriminate.
Qed.

(** C4 [Setup] returns the success status while subsystems are missing:
    when memory initialisation fails the status is success, the memory
    object is not initialised, and the export resolver, the processor, the
    graphics, input and audio systems, the file system and the kernel
    state are all null. *)
Theorem Setup_success_without_subsystems :
  let r := run (Setup memory_fails the_window (Some audio_factory)
                  graphics_factory (Some driver_factory)) fresh in
  fst r = X_STATUS_SUCCESS
  /\ memory_ (snd r) = Some {| memory_initialized := false |}
  /\ export_resolver_ (snd r) = None
  /\ processor_ (snd r) = None
  /\ graphics_system_ (snd r) = None
  /\ input_system_ (snd r) = None
  /\ audio_system_ (snd r) = None
  /\ file_system_ (snd r) = None
  /\ kernel_state_ (snd r) = None
  /\ subsystems_ready true (snd r) = false.
Proof.
  cbv zeta. rewrite Setup_memory_failure by reflexivity.
  repeat split.
Qed.

(** With every collaborator succeeding the same call does build
    everything. *)
Example Setup_all_succeed :
  let r := run (Setup all_succeed the_window (Some audio_factory)
                  graphics_factory (Some driver_factory)) fresh in
  fst r = X_STATUS_SUCCESS /\ subsystems_ready true (snd r) = true.
Proof. split; reflexivity. Qed.

(** *** Every way through [Setup] *)

Local Ltac wp_exit leaf := apply wp_return; cbv beta iota; leaf.

Local Ltac case_status leaf :=
  lazymatch goal with
  | |- wp (if truthy ?st then _ else _) _ _ =>
      let H := fresh "Hst" in
      destruct (truthy st) eqn:H; [wp_exit leaf|]
  end.

Local Ltac case_object leaf :=
  lazymatch goal with
  | |- wp (if negb (bool_decide (is_Some ?x)) then _ else _) _ _ =>
      let H := fresh "Hobj" in
      destruct x eqn:H;
      rewrite ?is_Some_Some_true, ?is_Some_None_false; cbv [negb];
      cbv iota; [|wp_exit leaf]
  | |- wp (if (if bool_decide (is_Some ?x) then false else true)
           then _ else _) _ _ =>
      let H := fresh "Hobj" in
      destruct x eqn:H;
      rewrite ?is_Some_Some_true, ?is_Some_None_false;
      cbv iota; [|wp_exit leaf]
  | |- wp (if negb ?b then _ else _) _ _ =>
      destruct b; cbv [negb]; cbv iota; [|wp_exit leaf]
  | |- wp (if (if ?b then false else true) then _ else _) _ _ =>
      destruct b; cbv iota; [|wp_exit leaf]
  end.

(** Walks [Setup] from a concrete record of members, splitting at every
    test; [leaf] closes the goal left at each [return]. *)
Local Ltac setup_walk leaf :=
  unfold Setup;
  cbn [FLAGS_debug Memory_Initialize Processor_Setup InputSystem_Setup
       GraphicsSystem_Setup AudioSystem_Setup];
  do 7 wp_next; case_object leaf;
  wp_next; apply wp_bind;
  lazymatch goal with
  | |- wp (if ?b then _ else _) _ _ =>
      destruct b; [wp_next; wp_last | wp_last]
  end;
  do 3 wp_next; case_object leaf;
  apply wp_bind;
  lazymatch goal with
  | |- wp (match ?af with Some _ => _ | None => _ end) _ _ =>
      destruct af as [?f|]; [do 3 wp_next; wp_last | wp_last]
  end;
  lazymatch goal with
  | |- wp (if negb (bool_decide (is_Some _)) then _ else _) _ _ =>
      case_object leaf
  | |- wp (if (if bool_decide (is_Some _) then false else true)
           then _ else _) _ _ =>
      case_object leaf
  | |- _ => idtac
  end;
  do 2 wp_next; case_object leaf;
  do 3 wp_next; rewrite ?is_Some_Some_true; cbv [negb]; cbv iota;
  apply wp_bind;
  lazymatch goal with
  | |- wp (match ?idf with Some _ => _ | None => _ end) _ _ =>
      destruct idf as [?df|];
      [eapply wp_pure; [apply add_drivers_spec|]; cbv beta iota;
       norm_state; norm_reads
      | wp_last]
  end;
  wp_next; case_status leaf;
  do 3 wp_next; case_status leaf;
  wp_next; apply wp_bind;
  lazymatch goal with
  | |- context [bool_decide (is_Some ?x)] =>
      first [is_var x; destruct x | idtac]
  end;
  rewrite ?is_Some_Some_true, ?is_Some_None_false; cbv iota;
  wp_last;
  rewrite ?is_Some_Some_true, ?is_Some_None_false; cbn [andb];
  lazymatch goal with
  | |- wp (if truthy _ then _ else _) _ _ => case_status leaf
  | |- _ => idtac
  end;
  do 4 wp_next; wp_exit leaf.

Local Ltac members :=
  cbn [display_window_ memory_ export_resolver_ debugger_ processor_
       audio_system_ graphics_system_ input_system_ file_system_
       kernel_state_ calls fst snd].

Local Ltac setup_start :=
  lazymatch goal with
  | o : Outcomes, e : Emulator |- _ =>
      destruct o as [dbg mi ps ist gst ast];
      destruct e as [dw me er de pr au gr inp fs ks cs];
      cbn [FLAGS_debug Memory_Initialize Processor_Setup InputSystem_Setup
           GraphicsSystem_Setup AudioSystem_Setup] in *;
      members
  end.

(** X2 When the processor cannot be set up, [Setup] stops with the generic
    unsuccessful status: the processor object exists, not set up and
    holding the debugger pointer, and the audio, graphics and input
    systems, the file system and the kernel state are as they were. *)
Theorem Setup_processor_failure o w af gf idf e :
  Memory_Initialize o = true -> Processor_Setup o = false ->
  fst (run (Setup o w af gf idf) e) = X_STATUS_UNSUCCESSFUL
  /\ processor_ (snd (run (Setup o w af gf idf) e))
     = Some {| processor_debugger :=
                 debugger_ (snd (run (Setup o w af gf idf) e));
               processor_ready := false |}
  /\ audio_system_ (snd (run (Setup o w af gf idf) e)) = audio_system_ e
  /\ graphics_system_ (snd (run (Setup o w af gf idf) e))
     = graphics_system_ e
  /\ input_system_ (snd (run (Setup o w af gf idf) e)) = input_system_ e
  /\ file_system_ (snd (run (Setup o w af gf idf) e)) = file_system_ e
  /\ kernel_state_ (snd (run (Setup o w af gf idf) e)) = kernel_state_ e.
Proof.
  intros Hm Hp.
  apply (run_wp _ e (fun s e' =>
    s = X_STATUS_UNSUCCESSFUL
    /\ processor_ e' = Some {| processor_debugger := debugger_ e';
                               processor_ready := false |}
    /\ audio_system_ e' = audio_system_ e
    /\ graphics_system_ e' = graphics_system_ e
    /\ input_system_ e' = input_system_ e
    /\ file_system_ e' = file_system_ e
    /\ kernel_state_ e' = kernel_state_ e)).
  setup_start.
  setup_walk ltac:(first [discriminate | members; repeat split]).
Qed.

Lemma Setup_audio_factory_null o w af f gf idf e :
  Memory_Initialize o = true -> Processor_Setup o = true ->
  af = Some f -> (forall p, f p = None) ->
  fst (run (Setup o w af gf idf) e) = X_STATUS_NOT_IMPLEMENTED
  /\ input_system_ (snd (run (Setup o w af gf idf) e)) = input_system_ e
  /\ file_system_ (snd (run (Setup o w af gf idf) e)) = file_system_ e
  /\ kernel_state_ (snd (run (Setup o w af gf idf) e)) = kernel_state_ e.
Proof.
  intros Hm Hp Haf Hnone.
  apply (run_wp _ e (fun s e' =>
    s = X_STATUS_NOT_IMPLEMENTED
    /\ input_system_ e' = input_system_ e
    /\ file_system_ e' = file_system_ e
    /\ kernel_state_ e' = kernel_state_ e)).
  setup_start.
  setup_walk ltac:(first
    [ discriminate
    | solve [members; repeat split]
    | exfalso; simplify_eq;
      match goal with H : _ = Some _ |- _ =>
        rewrite Hnone in H; discriminate H end ]).
Qed.

Lemma Setup_graphics_factory_null o w af gf idf e :
  Memory_Initialize o = true -> Processor_Setup o = true ->
  (forall f, af = Some f -> forall p, is_Some (f p)) ->
  gf tt = None ->
  fst (run (Setup o w af gf idf) e) = X_STATUS_NOT_IMPLEMENTED
  /\ input_system_ (snd (run (Setup o w af gf idf) e)) = input_system_ e
  /\ file_system_ (snd (run (Setup o w af gf idf) e)) = file_system_ e
  /\ kernel_state_ (snd (run (Setup o w af gf idf) e)) = kernel_state_ e.
Proof.
  intros Hm Hp Hsome Hg.
  apply (run_wp _ e (fun s e' =>
    s = X_STATUS_NOT_IMPLEMENTED
    /\ input_system_ e' = input_system_ e
    /\ file_system_ e' = file_system_ e
    /\ kernel_state_ e' = kernel_state_ e)).
  setup_start.
  setup_walk ltac:(first
    [ discriminate
    | congruence
    | exfalso;
      match goal with H : ?f0 ?p0 = None |- _ =>
        destruct (Hsome f0 eq_refl p0) as [? Hx];
        rewrite Hx in H; discriminate H end
    | solve [members; repeat split] ]).
Qed.

(** X3 A factory that returns no object stops [Setup] with the "not
    implemented" status: the audio factory when one was supplied, otherwise
    the graphics factory.  Nothing past the factories has been created. *)
Theorem Setup_missing_backend o w af gf idf e :
  Memory_Initialize o = true -> Processor_Setup o = true ->
  (exists f, af = Some f /\ forall p, f p = None)
  \/ ((forall f, af = Some f -> forall p, is_Some (f p)) /\ gf tt = None) ->
  fst (run (Setup o w af gf idf) e) = X_STATUS_NOT_IMPLEMENTED
  /\ input_system_ (snd (run (Setup o w af gf idf) e)) = input_system_ e
  /\ file_system_ (snd (run (Setup o w af gf idf) e)) = file_system_ e
  /\ kernel_state_ (snd (run (Setup o w af gf idf) e)) = kernel_state_ e.
Proof.
  intros Hm Hp [(f & -> & Hnone) | (Hsome & Hg)].
  - apply (Setup_audio_factory_null o w (Some f) f); auto.
  - apply Setup_graphics_factory_null; assumption.
Qed.

(** X4 Past the factories, the status of the first sub-system set-up that
    fails is returned as it is: the input system's, then the graphics
    system's, then the audio system's when there is an audio system.  The
    file system and the kernel state are created only after the input
    system is set up. *)
Theorem Setup_status_verbatim o w af gf idf e :
  Memory_Initialize o = true -> Processor_Setup o = true ->
  (forall f, af = Some f -> forall p, is_Some (f p)) ->
  is_Some (gf tt) ->
  (InputSystem_Setup o <> 0 ->
     fst (run (Setup o w af gf idf) e) = InputSystem_Setup o
     /\ file_system_ (snd (run (Setup o w af gf idf) e)) = file_system_ e
     /\ kernel_state_ (snd (run (Setup o w af gf idf) e)) = kernel_state_ e)
  /\ (InputSystem_Setup o = 0 -> GraphicsSystem_Setup o <> 0 ->
        fst (run (Setup o w af gf idf) e) = GraphicsSystem_Setup o)
  /\ (InputSystem_Setup o = 0 -> GraphicsSystem_Setup o = 0 ->
        is_Some (audio_system_ (snd (run (Setup o w af gf idf) e))) ->
        fst (run (Setup o w af gf idf) e) = AudioSystem_Setup o)
  /\ (InputSystem_Setup o = 0 -> GraphicsSystem_Setup o = 0 ->
        audio_system_ (snd (run (Setup o w af gf idf) e)) = None ->
        fst (run (Setup o w af gf idf) e) = X_STATUS_SUCCESS).
Proof.
  intros Hm Hp Hsome [g Hg].
  apply (run_wp _ e (fun s e' =>
    (InputSystem_Setup o <> 0 ->
       s = InputSystem_Setup o
       /\ file_system_ e' = file_system_ e
       /\ kernel_state_ e' = kernel_state_ e)
    /\ (InputSystem_Setup o = 0 -> GraphicsSystem_Setup o <> 0 ->
          s = GraphicsSystem_Setup o)
    /\ (InputSystem_Setup o = 0 -> GraphicsSystem_Setup o = 0 ->
          is_Some (audio_system_ e') -> s = AudioSystem_Setup o)
    /\ (InputSystem_Setup o = 0 -> GraphicsSystem_Setup o = 0 ->
          audio_system_ e' = None -> s = X_STATUS_SUCCESS))).
  setup_start.
  setup_walk ltac:(first
    [ discriminate
    | congruence
    | exfalso;
      match goal with H : ?f0 ?p0 = None |- _ =>
        destruct (Hsome f0 eq_refl p0) as [? Hx];
        rewrite Hx in H; discriminate H end
    | members;
      repeat match goal with
             | H : truthy _ = true |- _ => apply truthy_true_nonzero in H
             | H : truthy _ = false |- _ =>
                 apply truthy_false, Z.eqb_eq in H
             end;
      unfold X_STATUS_SUCCESS in *;
      repeat split; intros;
      first [ congruence | reflexivity
            | match goal with H : is_Some None |- _ =>
                destruct H; discriminate end ] ]).
Qed.

Local Ltac not_installed H :=
  exfalso;
  cbn [display_window_ memory_ export_resolver_ debugger_ processor_
       audio_system_ graphics_system_ input_system_ file_system_
       kernel_state_ calls fst snd] in H;
  repeat (apply elem_of_app in H as [H|H]);
  try (apply list_elem_of_singleton in H; discriminate H);
  contradiction.

Local Ltac statuses_zero :=
  repeat match goal with
         | H : truthy _ = false |- _ =>
             apply truthy_false, Z.eqb_eq in H; subst
         end.

(** X5 The exception hook is installed only by a [Setup] that has built and
    initialised every subsystem and returns success: whenever the hook has
    been installed, the status is success, every subsystem is ready, and
    the kernel state holds the two kernel modules, xboxkrnl first. *)
Theorem Setup_hook_only_when_ready o w af gf idf e :
  ExceptionHandler_Install ∉ calls e ->
  ExceptionHandler_Install ∈ calls (snd (run (Setup o w af gf idf) e)) ->
  fst (run (Setup o w af gf idf) e) = X_STATUS_SUCCESS
  /\ subsystems_ready (bool_decide (is_Some af))
       (snd (run (Setup o w af gf idf) e)) = true
  /\ kernel_state_ (snd (run (Setup o w af gf idf) e))
     = Some {| kernel_modules := ["xboxkrnl.exe"; "xam.xex"] |}.
Proof.
  intros Hfresh.
  apply (run_wp _ e (fun s e' =>
    ExceptionHandler_Install ∈ calls e' ->
    s = X_STATUS_SUCCESS
    /\ subsystems_ready (bool_decide (is_Some af)) e' = true
    /\ kernel_state_ e' = Some {| kernel_modules := ["xboxkrnl.exe";
                                                     "xam.xex"] |})).
  setup_start.
  setup_walk ltac:(intros Hin; first
    [ not_installed Hin
    | statuses_zero; repeat split ]).
Qed.

(** X6 A [Setup] that gets past the memory check and returns success has made
    its calls in this order: the three clock settings, the affinity switch,
    the start of the debugger session when the debug flag is set, and, last,
    the installation of the exception hook followed by the round trip to
    the display thread. *)
Theorem Setup_success_calls o w af gf idf e :
  Memory_Initialize o = true ->
  fst (run (Setup o w af gf idf) e) = X_STATUS_SUCCESS ->
  calls (snd (run (Setup o w af gf idf) e))
  = calls e
    ++ [set_guest_tick_frequency 50000000; set_guest_system_time_base;
        set_guest_time_scalar; EnableAffinityConfiguration]
    ++ (if FLAGS_debug o then [StartSession] else [])
    ++ [ExceptionHandler_Install; PostSynchronous_set_window].
Proof.
  intros Hm.
  apply (run_wp _ e (fun s e' =>
    s = X_STATUS_SUCCESS ->
    calls e' = calls e
      ++ [set_guest_tick_frequency 50000000; set_guest_system_time_base;
          set_guest_time_scalar; EnableAffinityConfiguration]
      ++ (if FLAGS_debug o then [StartSession] else [])
      ++ [ExceptionHandler_Install; PostSynchronous_set_window])).
  setup_start.
  setup_walk ltac:(intros Hret; first
    [ discriminate
    | exfalso; revert Hret; apply truthy_true_nonzero; assumption
    | members; rewrite <- ?app_assoc; reflexivity ]).
Qed.

(** X7 Past the memory check the processor exists and holds the emulator's
    debugger pointer: that of a new debugger when the debug flag is set,
    and the pointer the emulator had before otherwise. *)
Theorem Setup_processor_debugger o w af gf idf e :
  Memory_Initialize o = true ->
  exists pr,
    processor_ (snd (run (Setup o w af gf idf) e)) = Some pr
    /\ processor_debugger pr = debugger_ (snd (run (Setup o w af gf idf) e))
    /\ (FLAGS_debug o = true ->
          is_Some (debugger_ (snd (run (Setup o w af gf idf) e))))
    /\ (FLAGS_debug o = false ->
          debugger_ (snd (run (Setup o w af gf idf) e)) = debugger_ e).
Proof.
  intros Hm.
  apply (run_wp _ e (fun s e' =>
    exists pr,
      processor_ e' = Some pr
      /\ processor_debugger pr = debugger_ e'
      /\ (FLAGS_debug o = true -> is_Some (debugger_ e'))
      /\ (FLAGS_debug o = false -> debugger_ e' = debugger_ e))).
  setup_start.
  setup_walk ltac:(first
    [ discriminate
    | members; eexists; split; [reflexivity|];
      split; [reflexivity|]; split; intros;
      first [reflexivity | discriminate | eexists; reflexivity] ]).
Qed.

(** [Setup] stopped by the input system: the graphics system is the object
    the factory returned, on which [Setup] has not been called, and the
    exception hook has not been installed. *)
Lemma Setup_input_failure_state o w af gf idf e g :
  Memory_Initialize o = true -> Processor_Setup o = true ->
  (forall f, af = Some f -> forall p, is_Some (f p)) ->
  gf tt = Some g -> InputSystem_Setup o <> 0 ->
  ExceptionHandler_Install ∉ calls e ->
  graphics_system_ (snd (run (Setup o w af gf idf) e)) = Some g
  /\ ExceptionHandler_Install ∉ calls (snd (run (Setup o w af gf idf) e)).
Proof.
  intros Hm Hp Hsome Hg Hin Hfresh.
  apply (run_wp _ e (fun s e' =>
    graphics_system_ e' = Some g
    /\ ExceptionHandler_Install ∉ calls e')).
  setup_start.
  setup_walk ltac:(first
    [ discriminate
    | congruence
    | exfalso;
      match goal with H : ?f0 ?p0 = None |- _ =>
        destruct (Hsome f0 eq_refl p0) as [? Hx];
        rewrite Hx in H; discriminate H end
    | exfalso;
      match goal with H : truthy ist = false |- _ =>
        apply truthy_false, Z.eqb_eq in H; contradiction end
    | members; split; [congruence|];
      let Hc := fresh "Hc" in intros Hc; not_installed Hc ]).
Qed.

Import MoreScenarios.

Lemma Setup_success_ready_witness :
  Memory_Initialize all_succeed = true
  /\ fst (run (Setup all_succeed the_window (Some audio_factory)
                 graphics_factory (Some driver_factory)) fresh)
     = X_STATUS_SUCCESS
  /\ subsystems_ready true
       (snd (run (Setup all_succeed the_window (Some audio_factory)
                    graphics_factory (Some driver_factory)) fresh)) = true.
Proof.
  split; [reflexivity|]. split; [reflexivity|].
  apply (Setup_success_ready all_succeed the_window (Some audio_factory)
           graphics_factory (Some driver_factory) fresh);
    reflexivity.
Defined.

Lemma Setup_processor_failure_witness :
  Processor_Setup processor_fails = false
  /\ fst (run (Setup processor_fails the_window (Some audio_factory)
                 graphics_factory (Some driver_factory)) fresh)
     = X_STATUS_UNSUCCESSFUL
  /\ graphics_system_
       (snd (run (Setup processor_fails the_window (Some audio_factory)
                    graphics_factory (Some driver_factory)) fresh))
     = graphics_system_ fresh.
Proof.
  destruct (Setup_processor_failure processor_fails the_window
              (Some audio_factory) graphics_factory (Some driver_factory)
              fresh eq_refl eq_refl) as (Hst & _ & _ & Hg & _).
  split; [reflexivity|]. split; [exact Hst | exact Hg].
Defined.

Lemma Setup_missing_backend_witness :
  no_graphics tt = None
  /\ fst (run (Setup all_succeed the_window (Some audio_factory)
                 no_graphics (Some driver_factory)) fresh)
     = X_STATUS_NOT_IMPLEMENTED
  /\ input_system_
       (snd (run (Setup all_succeed the_window (Some audio_factory)
                    no_graphics (Some driver_factory)) fresh))
     = input_system_ fresh.
Proof.
  assert (Hsome : forall f, Some audio_factory = Some f ->
                    forall p, is_Some (f p))
    by (intros f [= <-] p; eexists; reflexivity).
  destruct (Setup_missing_backend all_succeed the_window
              (Some audio_factory) no_graphics (Some driver_factory)
              fresh eq_refl eq_refl (or_intror (conj Hsome eq_refl)))
    as (Hst & Hi & _).
  split; [reflexivity|]. split; [exact Hst | exact Hi].
Defined.

Lemma Setup_status_verbatim_witness :
  InputSystem_Setup input_fails <> 0
  /\ fst (run (Setup input_fails the_window (Some audio_factory)
                 graphics_factory (Some driver_factory)) fresh)
     = InputSystem_Setup input_fails
  /\ kernel_state_
       (snd (run (Setup input_fails the_window (Some audio_factory)
                    graphics_factory (Some driver_factory)) fresh))
     = kernel_state_ fresh.
Proof.
  assert (Hsome : forall f, Some audio_factory = Some f ->
                    forall p, is_Some (f p))
    by (intros f [= <-] p; eexists; reflexivity).
  assert (Hne : InputSystem_Setup input_fails <> 0) by discriminate.
  destruct (Setup_status_verbatim input_fails the_window
              (Some audio_factory) graphics_factory (Some driver_factory)
              fresh eq_refl eq_refl Hsome (ex_intro _ _ eq_refl))
    as (Hinput & _).
  destruct (Hinput Hne) as (Hst & _ & Hk).
  split; [exact Hne|]. split; [exact Hst | exact Hk].
Defined.

Lemma fully_built_hook_installed :
  ExceptionHandler_Install
  ∈ calls (snd (run (Setup all_succeed the_window (Some audio_factory)
                       graphics_factory (Some driver_factory)) fresh)).
Proof. vm_compute. repeat constructor. Qed.

Lemma Setup_hook_only_when_ready_witness :
  (ExceptionHandler_Install ∉ calls fresh)
  /\ fst (run (Setup all_succeed the_window (Some audio_factory)
                 graphics_factory (Some driver_factory)) fresh)
     = X_STATUS_SUCCESS
  /\ kernel_state_
       (snd (run (Setup all_succeed the_window (Some audio_factory)
                    graphics_factory (Some driver_factory)) fresh))
     = Some {| kernel_modules := ["xboxkrnl.exe"; "xam.xex"] |}.
Proof.
  assert (Hfresh : ExceptionHandler_Install ∉ calls fresh)
    by apply not_elem_of_nil.
  destruct (Setup_hook_only_when_ready all_succeed the_window
              (Some audio_factory) graphics_factory (Some driver_factory)
              fresh Hfresh fully_built_hook_installed) as (Hst & _ & Hk).
  split; [exact Hfresh|]. split; [exact Hst | exact Hk].
Defined.

Lemma Setup_success_calls_witness :
  Memory_Initialize all_succeed_debug = true
  /\ calls (snd (run (Setup all_succeed_debug the_window
                        (Some audio_factory) graphics_factory
                        (Some driver_factory)) fresh))
     = [set_guest_tick_frequency 50000000; set_guest_system_time_base;
        set_guest_time_scalar; EnableAffinityConfiguration; StartSession;
        ExceptionHandler_Install; PostSynchronous_set_window].
Proof.
  split; [reflexivity|].
  apply (Setup_success_calls all_succeed_debug the_window
           (Some audio_factory) graphics_factory (Some driver_factory)
           fresh); reflexivity.
Defined.

Lemma Setup_processor_debugger_witness :
  Memory_Initialize all_succeed_debug = true
  /\ exists pr,
       processor_ (snd (run (Setup all_succeed_debug the_window
                               (Some audio_factory) graphics_factory
                               (Some driver_factory)) fresh)) = Some pr
       /\ is_Some (processor_debugger pr).
Proof.
  split; [reflexivity|].
  destruct (Setup_processor_debugger all_succeed_debug the_window
              (Some audio_factory) graphics_factory (Some driver_factory)
              fresh eq_refl) as (pr & Hpr & Hd & Hflag & _).
  exists pr. split; [exact Hpr|]. rewrite Hd. apply Hflag. reflexivity.
Defined.
End LifecycleFacts.

(** ** Launch resolver: classification *)

Module ClassifyFacts.
Local Open Scope Z_scope.

Lemma find_last_of_from_absent s c i acc :
  c ∉ s -> find_last_of_from s c i acc = acc.
Proof.
  revert i acc. induction s as [|x r IH]; intros i acc Hc; simpl.
  - reflexivity.
  - apply not_elem_of_cons in Hc as [Hx Hr].
    rewrite IH by exact Hr.
    destruct (Z.eqb_spec x c); [congruence | reflexivity].
Qed.

Lemma find_last_of_from_bounds s c i acc :
  find_last_of_from s c i acc = acc
  \/ i <= find_last_of_from s c i acc < i + Z.of_nat (length s).
Proof.
  revert i acc. induction s as [|x r IH]; intros i acc; simpl length.
  - left. reflexivity.
  - simpl. destruct (Z.eqb_spec x c) as [->|Hne].
    + right. destruct (IH (i + 1) i) as [-> | Hb]; lia.
    + destruct (IH (i + 1) acc) as [-> | Hb]; [left; reflexivity | right; lia].
Qed.

(** X14 A path without a separator is taken for a container whatever its
    extension: [find_last_of] answers [npos] for the separator, and every
    position of a dot is below [npos]. *)
Lemma LaunchPath_branch_no_separator sep path :
  sep ∉ path -> Z.of_nat (length path) <= npos ->
  LaunchPath_branch sep path = StfsContainer.
Proof.
  intros Hsep Hlen. unfold LaunchPath_branch, find_last_of.
  rewrite (find_last_of_from_absent path sep) by exact Hsep.
  destruct (find_last_of_from_bounds path dot 0 npos) as [-> | Hb].
  - rewrite Z.ltb_irrefl, Z.eqb_refl. reflexivity.
  - destruct (Z.ltb_spec (find_last_of_from path dot 0 npos) npos);
      [|lia].
    rewrite Z.eqb_refl. reflexivity.
Qed.

Definition size_of (o : option nat) : Z := from_option Z.of_nat npos o.

Lemma find_last_of_from_index s c : forall i acc,
  find_last_of_from s c (Z.of_nat i) (size_of acc)
  = size_of (last_index_from s c i acc).
Proof.
  induction s as [|x r IH]; intros i acc; simpl; [reflexivity|].
  replace (Z.of_nat i + 1) with (Z.of_nat (S i)) by lia.
  destruct (x =? c); [apply (IH (S i) (Some i)) | apply IH].
Qed.

Lemma find_last_of_index s c :
  find_last_of s c = size_of (last_index s c).
Proof. apply (find_last_of_from_index s c 0%nat None). Qed.

Lemma last_index_from_bound s c : forall i acc n,
  last_index_from s c i acc = Some n ->
  acc = Some n \/ (i <= n < i + length s)%nat.
Proof.
  induction s as [|x r IH]; intros i acc n Hn; simpl in *; [auto|].
  apply IH in Hn as [Hn|Hn]; [|right; lia].
  destruct (x =? c); [injection Hn as <-; right; lia | auto].
Qed.

Lemma last_index_from_is_Some s c : forall i a,
  is_Some (last_index_from s c i (Some a)).
Proof.
  induction s as [|x r IH]; intros i a; simpl; [eexists; reflexivity|].
  destruct (x =? c); apply IH.
Qed.

Lemma last_index_from_None s c : forall i,
  last_index_from s c i None = None -> c ∉ s.
Proof.
  induction s as [|x r IH]; intros i Hn; simpl in *.
  - apply not_elem_of_nil.
  - destruct (Z.eqb_spec x c) as [->|Hne].
    + destruct (last_index_from_is_Some r c (S i) i) as [n Hs]. congruence.
    + apply not_elem_of_cons. split; [congruence | eauto].
Qed.

(** X15 On a path that has a separator, and on a path that has no dot,
    [LaunchPath] classifies as the specification says. *)
Lemma LaunchPath_branch_refines sep path :
  Z.of_nat (length path) <= npos ->
  sep ∈ path \/ dot ∉ path ->
  LaunchPath_branch sep path = spec_branch sep path.
Proof.
  intros Hlen Hsep. unfold LaunchPath_branch, spec_branch, substr.
  rewrite !find_last_of_index.
  destruct (last_index path dot) as [d|] eqn:Hd; simpl.
  - apply last_index_from_bound in Hd as Hdb.
    destruct Hdb as [Hdb|Hdb]; [discriminate|].
    destruct (last_index path sep) as [q|] eqn:Hq; simpl.
    + destruct (Nat.ltb_spec d q);
        destruct (Z.ltb_spec (Z.of_nat d) (Z.of_nat q)); try lia.
      * rewrite Z.eqb_refl. reflexivity.
      * destruct (Z.eqb_spec (Z.of_nat d) npos); [lia|].
        rewrite Nat2Z.id. reflexivity.
    + exfalso. destruct Hsep as [Hsep|Hdot].
      * apply (last_index_from_None path sep 0 Hq Hsep).
      * assert (Hnone : last_index path dot = None).
        { unfold last_index. clear -Hdot.
          generalize 0%nat. induction path as [|x r IH]; intros i;
            simpl; [reflexivity|].
          apply not_elem_of_cons in Hdot as [Hx Hr].
          destruct (Z.eqb_spec x dot); [congruence | apply IH, Hr]. }
        congruence.
  - assert (Hnlt : (npos <? size_of (last_index path sep)) = false).
    { apply Z.ltb_ge. destruct (last_index path sep) as [q|] eqn:Hq;
        simpl; [|lia].
      apply last_index_from_bound in Hq as [Hq|Hq]; [discriminate | lia]. }
    rewrite Hnlt, Z.eqb_refl. reflexivity.
Qed.

Example spec_branch_bare_file_name :
  spec_branch slash (L "game.xex") = XexFile
  /\ spec_branch slash (L "game.iso") = DiscImage.
Proof. split; reflexivity. Qed.

(** C2 [LaunchPath] on a path that is a bare file name: ["game.xex"] ends
    in a recognised module suffix, its last dot is not before any
    separator, and yet the branch taken is the container one, on either
    platform separator.  The same path below a directory is taken for a
    bare module. *)
Theorem LaunchPath_branch_bare_file_name :
  LaunchPath_branch slash (L "game.xex") = StfsContainer
  /\ LaunchPath_branch backslash (L "game.xex") = StfsContainer
  /\ LaunchPath_branch slash (L "game.xex") <> XexFile
  /\ LaunchPath_branch slash (L "/games/game.xex") = XexFile.
Proof. repeat split. discriminate. Qed.

Example LaunchPath_branch_module_in_directory :
  LaunchPath_branch slash (L "/games/foo.xex") = XexFile
  /\ LaunchPath_branch slash (L "/games/foo.elf") = XexFile
  /\ LaunchPath_branch backslash (L "C:\games\foo.xex") = XexFile.
Proof. repeat split. Qed.

Example LaunchPath_branch_disc_in_directory :
  LaunchPath_branch slash (L "/games/game.iso") = DiscImage.
Proof. reflexivity. Qed.

Example LaunchPath_branch_no_dot :
  LaunchPath_branch slash (L "MyGame") = StfsContainer
  /\ LaunchPath_branch slash (L "/games/MyGame") = StfsContainer.
Proof. split; reflexivity. Qed.

Example LaunchPath_branch_dot_in_directory :
  LaunchPath_branch slash (L "/games/a.b/c") = StfsContainer.
Proof. reflexivity. Qed.

Example LaunchPath_branch_bare_disc_name :
  LaunchPath_branch slash (L "game.iso") = StfsContainer.
Proof. reflexivity. Qed.

Lemma wstring_eqb_eq a : forall b, wstring_eqb a b = true -> a = b.
Proof.
  induction a as [|x a IH]; intros [|y b] H; simpl in H;
    try discriminate; [reflexivity|].
  apply andb_prop in H as [Hxy Hab].
  apply Z.eqb_eq in Hxy. rewrite (IH b Hab), Hxy. reflexivity.
Qed.

(** X16 What the branch says about the path, whatever its length and the
    separator: a path without a dot is taken for a container, and the
    bare-module branch is taken only for a path that ends in [.xex] or
    [.elf], in these very letters. *)
Theorem LaunchPath_branch_sound sep path :
  (dot ∉ path -> LaunchPath_branch sep path = StfsContainer)
  /\ (LaunchPath_branch sep path = XexFile ->
        exists stem, path = stem ++ L ".xex" \/ path = stem ++ L ".elf").
Proof.
  unfold LaunchPath_branch, find_last_of. split.
  - intros Hdot.
    rewrite (find_last_of_from_absent path dot) by exact Hdot.
    destruct (npos <? find_last_of_from path sep 0 npos);
      rewrite Z.eqb_refl; reflexivity.
  - set (last_dot :=
           if find_last_of_from path dot 0 npos
              <? find_last_of_from path sep 0 npos
           then npos else find_last_of_from path dot 0 npos).
    destruct (last_dot =? npos); [discriminate|].
    destruct (wstring_eqb (substr path last_dot) (L ".xex")) eqn:Hxex.
    + intros _. exists (take (Z.to_nat last_dot) path). left.
      apply wstring_eqb_eq in Hxex. unfold substr in Hxex.
      rewrite <- Hxex. symmetry. apply take_drop.
    + destruct (wstring_eqb (substr path last_dot) (L ".elf")) eqn:Helf;
        [|discriminate].
      intros _. exists (take (Z.to_nat last_dot) path). right.
      apply wstring_eqb_eq in Helf. unfold substr in Helf.
      rewrite <- Helf. symmetry. apply take_drop.
Qed.

Lemma LaunchPath_branch_no_separator_witness :
  (slash ∉ L "game.xex")
  /\ Z.of_nat (length (L "game.xex")) <= npos
  /\ LaunchPath_branch slash (L "game.xex") = StfsContainer.
Proof.
  assert (Hsep : slash ∉ L "game.xex")
    by (apply (bool_decide_eq_false_1 _); reflexivity).
  assert (Hlen : Z.of_nat (length (L "game.xex")) <= npos)
    by (vm_compute; discriminate).
  split; [exact Hsep|]. split; [exact Hlen|].
  apply (LaunchPath_branch_no_separator slash (L "game.xex") Hsep Hlen).
Defined.

Lemma LaunchPath_branch_refines_witness :
  Z.of_nat (length (L "/games/foo.xex")) <= npos
  /\ slash ∈ L "/games/foo.xex"
  /\ LaunchPath_branch slash (L "/games/foo.xex")
     = spec_branch slash (L "/games/foo.xex").
Proof.
  assert (Hlen : Z.of_nat (length (L "/games/foo.xex")) <= npos)
    by (vm_compute; discriminate).
  assert (Hsep : slash ∈ L "/games/foo.xex")
    by (apply (bool_decide_eq_true_1 _); reflexivity).
  split; [exact Hlen|]. split; [exact Hsep|].
  apply (LaunchPath_branch_refines slash (L "/games/foo.xex") Hlen).
  left. exact Hsep.
Defined.

Lemma LaunchPath_branch_sound_witness :
  (dot ∉ L "/games/MyGame")
  /\ LaunchPath_branch slash (L "/games/MyGame") = StfsContainer
  /\ LaunchPath_branch slash (L "/games/foo.elf") = XexFile
  /\ exists stem, L "/games/foo.elf" = stem ++ L ".xex"
                  \/ L "/games/foo.elf" = stem ++ L ".elf".
Proof.
  assert (Hdot : dot ∉ L "/games/MyGame")
    by (apply (bool_decide_eq_false_1 _); reflexivity).
  destruct (LaunchPath_branch_sound slash (L "/games/MyGame")) as (Hc & _).
  destruct (LaunchPath_branch_sound slash (L "/games/foo.elf")) as (_ & Hx).
  split; [exact Hdot|]. split; [exact (Hc Hdot)|].
  split; [reflexivity|]. apply Hx. reflexivity.
Defined.
End ClassifyFacts.

(** ** Host exception callback *)

Module ExceptionFacts.
Import Exceptions.
Local Open Scope N_scope.

(** *** The sweep over the thread objects *)

Section Sweep.
Context {D : Type}.
Implicit Types (p : Process D) (ptr q cur : N).

Lemma suspend_other_lookup cur p q ptr :
  threads (suspend_other cur p q) !! ptr =
  if decide (q = ptr)
  then (fun t => if can_debugger_suspend t && negb (cur =? ptr)
                 then Suspend t else t) <$> threads p !! ptr
  else threads p !! ptr.
Proof.
  unfold suspend_other, thread_Suspend.
  destruct (decide (q = ptr)) as [->|Hne].
  - destruct (threads p !! ptr) as [t|] eqn:Ht; simpl; [|exact Ht].
    destruct (can_debugger_suspend t) eqn:Hc; simpl; [|exact Ht].
    destruct (cur =? ptr); simpl; [exact Ht|].
    rewrite lookup_alter_eq, Ht. reflexivity.
  - destruct (threads p !! q) as [t|] eqn:Ht; [|reflexivity].
    destruct (can_debugger_suspend t); simpl; [|reflexivity].
    destruct (cur =? q); [reflexivity|]. simpl.
    apply lookup_alter_ne. exact Hne.
Qed.

Lemma suspend_other_effects cur p q :
  effects (suspend_other cur p q) =
  effects p ++ (if suspendable_other cur (threads p) q
                then [ThreadSuspend q] else []).
Proof.
  unfold suspend_other, suspendable_other, thread_Suspend.
  destruct (threads p !! q) as [t|]; simpl; [|apply eq_sym, app_nil_r].
  destruct (can_debugger_suspend t); simpl; [|apply eq_sym, app_nil_r].
  destruct (cur =? q); simpl; [apply eq_sym, app_nil_r | reflexivity].
Qed.

(** A pass of the sweep does not change which objects are threads that may
    be suspended. *)
Lemma suspend_other_suspendable cur p q ptr :
  suspendable_other cur (threads (suspend_other cur p q)) ptr
  = suspendable_other cur (threads p) ptr.
Proof.
  unfold suspendable_other. rewrite suspend_other_lookup.
  destruct (decide (q = ptr)); [|reflexivity].
  destruct (threads p !! ptr) as [t|]; [|reflexivity]. simpl.
  destruct (can_debugger_suspend t) eqn:Hc; destruct (cur =? ptr); simpl;
    rewrite ?Hc; reflexivity.
Qed.

(** The sweep never removes a thread, never changes its capability and
    never lowers its suspend count. *)
Lemma sweep_monotone cur l : forall p ptr t,
  threads p !! ptr = Some t ->
  exists t', threads (foldl (suspend_other cur) p l) !! ptr = Some t'
    /\ can_debugger_suspend t' = can_debugger_suspend t
    /\ suspend_count t <= suspend_count t'.
Proof.
  induction l as [|q l IH]; intros p ptr t Ht; simpl.
  - exists t. split; [exact Ht|]. split; [reflexivity | lia].
  - destruct (IH (suspend_other cur p q) ptr
                (if decide (q = ptr)
                 then if can_debugger_suspend t && negb (cur =? ptr)
                      then Suspend t else t
                 else t)) as (t' & Hl & Hc & Hn).
    { rewrite suspend_other_lookup, Ht.
      destruct (decide (q = ptr)); reflexivity. }
    exists t'. split; [exact Hl|].
    destruct (decide (q = ptr));
      [destruct (can_debugger_suspend t && negb (cur =? ptr))|];
      simpl in *; split; try congruence; lia.
Qed.

(** The sweep leaves alone the faulting thread, the threads that may not be
    suspended, the threads that are not in the table and the pointers that
    are not threads. *)
Lemma sweep_untouched cur l : forall p ptr,
  ptr = cur \/ ptr ∉ l
  \/ from_option can_debugger_suspend false (threads p !! ptr) = false ->
  threads (foldl (suspend_other cur) p l) !! ptr = threads p !! ptr.
Proof.
  induction l as [|q l IH]; intros p ptr Hcase; simpl; [reflexivity|].
  assert (Hstep : threads (suspend_other cur p q) !! ptr = threads p !! ptr).
  { rewrite suspend_other_lookup.
    destruct (decide (q = ptr)) as [->|]; [|reflexivity].
    destruct (threads p !! ptr) as [t|] eqn:Ht; [|reflexivity]. simpl.
    destruct Hcase as [-> | [Hn | Hc]].
    - rewrite N.eqb_refl, andb_false_r. reflexivity.
    - exfalso. apply Hn. left.
    - simpl in Hc. rewrite Hc. reflexivity. }
  rewrite IH; [exact Hstep|].
  destruct Hcase as [-> | [Hn | Hc]]; [left; reflexivity | |].
  - right. left. intros Hin. apply Hn. right. exact Hin.
  - right. right. rewrite Hstep. exact Hc.
Qed.

(** The sweep suspends every other thread of the table that may be
    suspended. *)
Lemma sweep_suspends cur l : forall p ptr t,
  ptr ∈ l -> ptr <> cur -> threads p !! ptr = Some t ->
  can_debugger_suspend t = true ->
  exists t', threads (foldl (suspend_other cur) p l) !! ptr = Some t'
    /\ can_debugger_suspend t' = true
    /\ suspend_count t < suspend_count t'.
Proof.
  induction l as [|q l IH]; intros p ptr t Hin Hne Ht Hc.
  - apply elem_of_nil in Hin. contradiction.
  - simpl. destruct (decide (q = ptr)) as [->|Hq].
    + destruct (sweep_monotone cur l (suspend_other cur p ptr) ptr
                  (Suspend t)) as (t' & Hl & Hc' & Hn).
      { rewrite suspend_other_lookup, Ht.
        destruct (decide (ptr = ptr)); [|congruence]. simpl.
        rewrite Hc. destruct (N.eqb_spec cur ptr); [congruence|].
        reflexivity. }
      exists t'. split; [exact Hl|]. simpl in *. split; [congruence | lia].
    + apply elem_of_cons in Hin as [->|Hin]; [congruence|].
      apply (IH (suspend_other cur p q) ptr t Hin Hne); [|exact Hc].
      rewrite suspend_other_lookup.
      destruct (decide (q = ptr)); [congruence | exact Ht].
Qed.

(** The calls of [Suspend] the sweep makes: one for each entry of the table
    that is another thread that may be suspended, in the order of the
    table. *)
Lemma sweep_effects cur l : forall p,
  effects (foldl (suspend_other cur) p l) =
  effects p
  ++ map ThreadSuspend (List.filter (suspendable_other cur (threads p)) l).
Proof.
  induction l as [|q l IH]; intros p; simpl; [apply eq_sym, app_nil_r|].
  rewrite IH, suspend_other_effects, <- app_assoc. f_equal.
  rewrite (List.filter_ext _ (suspendable_other cur (threads p)))
    by (intros ptr; apply suspend_other_suspendable).
  destruct (suspendable_other cur (threads p) q); reflexivity.
Qed.
End Sweep.

(** *** The callback *)

Section Callback.
Context {D : Type}.
Variable addr_bits : N.
Variable OnUnhandledException : Exception -> Process D -> bool * Process D.

Lemma code_end_le (p : Process D) :
  code_end addr_bits p <= code_base p + total_size p.
Proof. unfold code_end. apply N.Div0.mod_le. Qed.

(** When there is no debugger object the callback does nothing and
    reports the fault as not handled, wherever the fault is. *)
Lemma ExceptionCallback_no_debugger_object ex (p : Process D) :
  debugger p = None ->
  ExceptionCallback addr_bits OnUnhandledException ex p = (false, p).
Proof. intros Hd. unfold ExceptionCallback. rewrite Hd. reflexivity. Qed.

(** X25 [ExceptionCallback], guest-crash containment.  When the emulator
    has a debugger object to which no client is attached, no foreign
    debugger is attached, the fault is in guest code and the end of the
    code region does not wrap, the callback takes the global lock, calls
    [Suspend] on every entry of the table that is another thread that may
    be suspended, posts one message box to the display thread, and then
    calls [Suspend] on the faulting thread; [false] is what it would
    return.  After it every other thread of the table that may be
    suspended is suspended, the faulting thread has been suspended once,
    the threads that may not be suspended and those outside the table are
    as before, and exactly one dialog has been posted. *)
Theorem ExceptionCallback_containment ex (p : Process D) d :
  debugger p = Some d -> is_attached d = false ->
  foreign_debugger p = false ->
  in_guest_code ex p ->
  code_base p + total_size p < 2 ^ addr_bits ->
  let r := ExceptionCallback addr_bits OnUnhandledException ex p in
  fst r = false
  /\ (exists box,
        effects (snd r) =
        effects p ++ [AcquireDirect]
        ++ map ThreadSuspend
             (List.filter (suspendable_other (current_thread p) (threads p))
                (object_table p))
        ++ [box; ThreadSuspend (current_thread p)]
        /\ dialogs [box] = [box])
  /\ (forall ptr t, ptr ∈ object_table p -> ptr <> current_thread p ->
        threads p !! ptr = Some t -> can_debugger_suspend t = true ->
        exists t', threads (snd r) !! ptr = Some t'
                   /\ is_suspended t' = true)
  /\ (forall t, threads p !! current_thread p = Some t ->
        threads (snd r) !! current_thread p = Some (Suspend t)
        /\ is_suspended (Suspend t) = true)
  /\ (forall ptr, ptr <> current_thread p ->
        ptr ∉ object_table p
        \/ from_option can_debugger_suspend false (threads p !! ptr)
           = false ->
        threads (snd r) !! ptr = threads p !! ptr).
Proof.
  intros Hd Ha Hf [Hlo Hhi] Hwrap. unfold ExceptionCallback.
  rewrite Hd, Ha, Hf. simpl negb. simpl andb. cbv iota.
  replace (code_end addr_bits p) with (code_base p + total_size p)
    by (unfold code_end; rewrite N.mod_small; [reflexivity | exact Hwrap]).
  destruct (N.leb_spec (code_base p) (pc ex)); [|lia].
  destruct (N.ltb_spec (pc ex) (code_base p + total_size p)); [|lia].
  simpl negb. simpl andb. cbv iota zeta.
  change (object_table (effect AcquireDirect p)) with (object_table p).
  change (current_thread (effect AcquireDirect p)) with (current_thread p).
  set (swept := foldl (suspend_other (current_thread p))
                  (effect AcquireDirect p) (object_table p)).
  split; [reflexivity|]. split.
  { eexists. split; [|shelve].
    unfold thread_Suspend, effect at 1 2. simpl. subst swept.
    rewrite sweep_effects. simpl. rewrite <- !app_assoc. reflexivity.
    Unshelve. reflexivity. }
  unfold thread_Suspend. simpl. split; [|split].
  - intros ptr t Hin Hne Ht Hc.
    destruct (sweep_suspends (current_thread p) (object_table p)
                (effect AcquireDirect p) ptr t Hin Hne Ht Hc)
      as (t' & Hl & _ & Hn).
    exists t'. rewrite lookup_alter_ne by congruence.
    split; [exact Hl|]. unfold is_suspended.
    apply N.ltb_lt. lia.
  - intros t Ht. rewrite lookup_alter_eq. subst swept.
    rewrite sweep_untouched by (left; reflexivity).
    simpl. rewrite Ht. split; [reflexivity|].
    unfold is_suspended. simpl. apply N.ltb_lt. lia.
  - intros ptr Hne Hrest. rewrite lookup_alter_ne by congruence.
    subst swept. rewrite sweep_untouched; [reflexivity|].
    right. exact Hrest.
Qed.

(** C7 [ExceptionCallback], fault outside the guest code region with no
    debugger attached, neither the emulator's own nor a foreign one: the
    callback returns [false] and leaves the process as it was; no thread
    changes its suspension state and nothing is posted to the display
    thread. *)
Theorem ExceptionCallback_outside_guest_code ex (p : Process D) :
  own_debugger_attached p = false ->
  foreign_debugger p = false ->
  ~ in_guest_code ex p ->
  ExceptionCallback addr_bits OnUnhandledException ex p = (false, p).
Proof.
  intros Ha Hf Hout. unfold ExceptionCallback.
  unfold own_debugger_attached in Ha.
  destruct (debugger p) as [d|]; [|reflexivity].
  rewrite Ha, Hf. simpl.
  destruct (N.leb_spec (code_base p) (pc ex)); [|reflexivity].
  destruct (N.ltb_spec (pc ex) (code_end addr_bits p)); [|reflexivity].
  exfalso. apply Hout. split; [assumption|].
  pose proof (code_end_le p). lia.
Qed.
End Callback.

Import Scenarios.

Lemma ExceptionCallback_outside_guest_code_witness :
  own_debugger_attached process_debugger_idle = false
  /\ foreign_debugger process_debugger_idle = false
  /\ ~ in_guest_code host_fault process_debugger_idle
  /\ ExceptionCallback 32 debugger_declines host_fault process_debugger_idle
     = (false, process_debugger_idle).
Proof.
  assert (Hout : ~ in_guest_code host_fault process_debugger_idle)
    by (unfold in_guest_code; simpl; lia).
  split; [reflexivity|]. split; [reflexivity|]. split; [exact Hout|].
  apply (ExceptionCallback_outside_guest_code 32 debugger_declines
           host_fault process_debugger_idle);
    [reflexivity | reflexivity | exact Hout].
Defined.

Lemma ExceptionCallback_containment_witness :
  in_guest_code guest_fault process_debugger_idle
  /\ fst (ExceptionCallback 32 debugger_declines guest_fault
            process_debugger_idle) = false
  /\ (exists box,
        effects (snd (ExceptionCallback 32 debugger_declines guest_fault
                        process_debugger_idle))
        = [AcquireDirect; ThreadSuspend 11; box; ThreadSuspend 10]
        /\ dialogs [box] = [box])
  /\ (forall t, threads process_debugger_idle !! 10 = Some t ->
        threads (snd (ExceptionCallback 32 debugger_declines guest_fault
                        process_debugger_idle)) !! 10
        = Some (Suspend t)
        /\ is_suspended (Suspend t) = true).
Proof.
  assert (Hin : in_guest_code guest_fault process_debugger_idle)
    by (unfold in_guest_code; simpl; lia).
  destruct (ExceptionCallback_containment 32 debugger_declines guest_fault
              process_debugger_idle {| is_attached := false |}
              eq_refl eq_refl eq_refl Hin eq_refl)
    as (Hret & Hbox & _ & Hself & _).
  split; [exact Hin|]. split; [exact Hret|].
  split; [exact Hbox | exact Hself].
Defined.

(** C1 [ExceptionCallback] does not contain a guest crash when the
    emulator was started without a debugger.  For a fault inside the guest
    code region with no debugger attached, neither the emulator's own nor
    a foreign one, the callback returns [false] at its first test, the
    one commented as passing the fault to a foreign debugger: the second
    thread, which may be suspended and is not the faulting one, is not
    suspended, and nothing is posted to the display thread. *)
Lemma ExceptionCallback_guest_fault_without_debugger_object :
  in_guest_code guest_fault process_no_debugger
  /\ own_debugger_attached process_no_debugger = false
  /\ foreign_debugger process_no_debugger = false
  /\ can_debugger_suspend <$> threads process_no_debugger !! 11 = Some true
  /\ current_thread process_no_debugger <> 11
  /\ fst (ExceptionCallback 32 debugger_declines guest_fault
            process_no_debugger) = false
  /\ is_suspended
       <$> threads (snd (ExceptionCallback 32 debugger_declines guest_fault
                           process_no_debugger)) !! 11
     = Some false
  /\ dialogs (effects (snd (ExceptionCallback 32 debugger_declines
                               guest_fault process_no_debugger))) = [].
Proof.
  split; [unfold in_guest_code; simpl; lia|].
  repeat split. discriminate.
Qed.

(** The same fault with a debugger object that has no client: the
    containment steps run. *)
Example ExceptionCallback_guest_fault_debugger_idle :
  let r := ExceptionCallback 32 debugger_declines guest_fault
             process_debugger_idle in
  fst r = false
  /\ length (dialogs (effects (snd r))) = 1%nat
  /\ is_suspended <$> threads (snd r) !! 10 = Some true
  /\ is_suspended <$> threads (snd r) !! 11 = Some true
  /\ is_suspended <$> threads (snd r) !! 12 = Some false.
Proof. vm_compute. repeat split. Qed.

(** *** More about the sweep and the callback *)

Section SweepMore.
Context {D : Type}.
Implicit Types (p : Process D) (ptr q cur : N).

Lemma suspend_other_frame cur p q :
  debugger (suspend_other cur p q) = debugger p
  /\ debugger_state (suspend_other cur p q) = debugger_state p
  /\ foreign_debugger (suspend_other cur p q) = foreign_debugger p
  /\ code_base (suspend_other cur p q) = code_base p
  /\ total_size (suspend_other cur p q) = total_size p
  /\ object_table (suspend_other cur p q) = object_table p
  /\ current_thread (suspend_other cur p q) = current_thread p.
Proof.
  unfold suspend_other, thread_Suspend.
  destruct (threads p !! q) as [t|]; [|repeat split].
  destruct (can_debugger_suspend t); [|repeat split].
  destruct (cur =? q); repeat split.
Qed.

Lemma sweep_frame cur l : forall p,
  debugger (foldl (suspend_other cur) p l) = debugger p
  /\ debugger_state (foldl (suspend_other cur) p l) = debugger_state p
  /\ foreign_debugger (foldl (suspend_other cur) p l) = foreign_debugger p
  /\ code_base (foldl (suspend_other cur) p l) = code_base p
  /\ total_size (foldl (suspend_other cur) p l) = total_size p
  /\ object_table (foldl (suspend_other cur) p l) = object_table p
  /\ current_thread (foldl (suspend_other cur) p l) = current_thread p.
Proof.
  induction l as [|q l IH]; intros p; simpl; [repeat split|].
  destruct (IH (suspend_other cur p q)) as (H1 & H2 & H3 & H4 & H5 & H6 & H7).
  destruct (suspend_other_frame cur p q)
    as (G1 & G2 & G3 & G4 & G5 & G6 & G7).
  repeat split; congruence.
Qed.

(** The sweep calls [Suspend] on a thread once for each of its entries in
    the table. *)
Lemma sweep_exact cur l : forall p ptr t,
  threads p !! ptr = Some t ->
  exists t', threads (foldl (suspend_other cur) p l) !! ptr = Some t'
    /\ can_debugger_suspend t' = can_debugger_suspend t
    /\ suspend_count t' =
       suspend_count t
       + (if suspendable_other cur (threads p) ptr
          then N.of_nat (count_occ N.eq_dec l ptr) else 0).
Proof.
  induction l as [|q l IH]; intros p ptr t Ht; simpl foldl.
  - exists t. split; [exact Ht|]. split; [reflexivity|].
    simpl. destruct (suspendable_other cur (threads p) ptr); lia.
  - pose proof (suspend_other_lookup cur p q ptr) as Hstep.
    rewrite Ht in Hstep. simpl in Hstep.
    assert (Hsusp : suspendable_other cur (threads p) ptr
                    = can_debugger_suspend t && negb (cur =? ptr))
      by (unfold suspendable_other; rewrite Ht; reflexivity).
    destruct (decide (q = ptr)) as [->|Hne].
    + destruct (IH (suspend_other cur p ptr) ptr _ Hstep)
        as (t' & Hl & Hc & Hn).
      rewrite suspend_other_suspendable in Hn.
      exists t'. split; [exact Hl|].
      rewrite Hsusp in *. simpl count_occ.
      destruct (N.eq_dec ptr ptr); [|congruence].
      destruct (can_debugger_suspend t && negb (cur =? ptr));
        simpl in *; split; try congruence; lia.
    + destruct (IH (suspend_other cur p q) ptr _ Hstep)
        as (t' & Hl & Hc & Hn).
      rewrite suspend_other_suspendable in Hn.
      exists t'. split; [exact Hl|]. split; [exact Hc|].
      simpl count_occ. destruct (N.eq_dec q ptr); [congruence|]. exact Hn.
Qed.
End SweepMore.

Section CallbackMore.
Context {D : Type}.
Variable addr_bits : N.
Variable OnUnhandledException : Exception -> Process D -> bool * Process D.

(** X22 Who gets the exception when a debugger is attached.  With the
    emulator's own debugger attached the callback is the debugger's
    handler, wherever the fault is and whether or not a foreign debugger is
    attached as well.  With only a foreign debugger attached the callback
    passes every exception on, also one in guest code, and touches
    nothing. *)
Theorem ExceptionCallback_debuggers ex (p : Process D) :
  (own_debugger_attached p = true ->
     ExceptionCallback addr_bits OnUnhandledException ex p
     = OnUnhandledException ex p)
  /\ (own_debugger_attached p = false -> foreign_debugger p = true ->
        ExceptionCallback addr_bits OnUnhandledException ex p = (false, p)).
Proof.
  unfold own_debugger_attached, ExceptionCallback.
  split.
  - destruct (debugger p) as [d|]; [|discriminate].
    intros ->. reflexivity.
  - destruct (debugger p) as [d|]; [|reflexivity].
    intros -> ->. reflexivity.
Qed.

(** X23 Without the emulator's debugger attached, the callback never reports
    an exception as handled and never undoes a suspension: every thread
    object is still there with the same capability and a suspend count
    that has not gone down, no thread object appears, the debugger, the
    code region, the table and the current thread are as before, and the
    effects so far are still the beginning of the effects. *)
Theorem ExceptionCallback_never_resumes ex (p : Process D) :
  own_debugger_attached p = false ->
  fst (ExceptionCallback addr_bits OnUnhandledException ex p) = false
  /\ (forall ptr t, threads p !! ptr = Some t ->
        exists t',
          threads (snd (ExceptionCallback addr_bits OnUnhandledException
                          ex p)) !! ptr = Some t'
          /\ can_debugger_suspend t' = can_debugger_suspend t
          /\ suspend_count t <= suspend_count t')
  /\ (forall ptr, threads p !! ptr = None ->
        threads (snd (ExceptionCallback addr_bits OnUnhandledException
                        ex p)) !! ptr = None)
  /\ debugger (snd (ExceptionCallback addr_bits OnUnhandledException ex p))
     = debugger p
  /\ code_base (snd (ExceptionCallback addr_bits OnUnhandledException ex p))
     = code_base p
  /\ total_size (snd (ExceptionCallback addr_bits OnUnhandledException ex p))
     = total_size p
  /\ object_table
       (snd (ExceptionCallback addr_bits OnUnhandledException ex p))
     = object_table p
  /\ current_thread
       (snd (ExceptionCallback addr_bits OnUnhandledException ex p))
     = current_thread p
  /\ exists evs,
       effects (snd (ExceptionCallback addr_bits OnUnhandledException ex p))
       = effects p ++ evs.
Proof.
  intros Hown.
  assert (Hsame : forall q : Process D,
    (forall ptr t, threads q !! ptr = Some t ->
       exists t', threads q !! ptr = Some t'
         /\ can_debugger_suspend t' = can_debugger_suspend t
         /\ suspend_count t <= suspend_count t')
    /\ (forall ptr, threads q !! ptr = None -> threads q !! ptr = None)
    /\ debugger q = debugger q /\ code_base q = code_base q
    /\ total_size q = total_size q /\ object_table q = object_table q
    /\ current_thread q = current_thread q
    /\ exists evs, effects q = effects q ++ evs).
  { intros q. split.
    - intros ptr t Ht. exists t. split; [exact Ht|].
      split; [reflexivity | lia].
    - repeat split; auto. exists []. rewrite app_nil_r. reflexivity. }
  assert (Hcases :
    ExceptionCallback addr_bits OnUnhandledException ex p = (false, p)
    \/ ExceptionCallback addr_bits OnUnhandledException ex p
       = (false,
          thread_Suspend (current_thread p)
            (effect
               (ShowMessageBox "Uh-oh!"
                  ("The guest has crashed." +:+ newline +:+ newline
                   +:+ "Xenia has now paused itself."))
               (foldl (suspend_other (current_thread p))
                  (effect AcquireDirect p) (object_table p))))).
  { unfold own_debugger_attached in Hown. unfold ExceptionCallback.
    destruct (debugger p) as [d|]; [|left; reflexivity].
    rewrite Hown. cbn [negb andb].
    destruct (foreign_debugger p); [left; reflexivity|].
    destruct (negb _); [left; reflexivity|]. right. reflexivity. }
  destruct Hcases as [-> | ->]; [split; [reflexivity | apply Hsame]|].
  set (swept := foldl (suspend_other (current_thread p))
                  (effect AcquireDirect p) (object_table p)).
  destruct (sweep_frame (current_thread p) (object_table p)
              (effect AcquireDirect p))
    as (F1 & _ & _ & F4 & F5 & F6 & F7).
  fold swept in F1, F4, F5, F6, F7.
  split; [reflexivity|]. cbn [snd].
  unfold thread_Suspend.
  cbn [threads debugger code_base total_size object_table current_thread
       effects effect with_threads].
  split; [|split; [|repeat split; try assumption]].
  - intros ptr t Ht.
    destruct (sweep_monotone (current_thread p) (object_table p)
                (effect AcquireDirect p) ptr t Ht) as (t1 & Hl & Hc & Hn).
    fold swept in Hl.
    destruct (decide (current_thread p = ptr)) as [->|Hne].
    + exists (Suspend t1). rewrite lookup_alter_eq, Hl.
      split; [reflexivity|]. simpl. split; [exact Hc | lia].
    + exists t1. rewrite lookup_alter_ne by exact Hne.
      split; [exact Hl|]. split; [exact Hc | exact Hn].
  - intros ptr Hnone.
    assert (Hl : threads swept !! ptr = None).
    { subst swept. rewrite sweep_untouched; [exact Hnone|].
      right. right. cbn [threads effect]. rewrite Hnone. reflexivity. }
    destruct (decide (current_thread p = ptr)) as [->|Hne].
    + rewrite lookup_alter_eq, Hl. reflexivity.
    + rewrite lookup_alter_ne by exact Hne. exact Hl.
  - subst swept. rewrite sweep_effects. cbn [effects effect].
    eexists. rewrite <- !app_assoc. reflexivity.
Qed.

(** X24 On the containment path the suspend count of every thread is known
    exactly: a thread other than the faulting one that may be suspended
    gains one for each of its entries in the table, the faulting thread
    gains exactly one, every other thread keeps its count. *)
Theorem ExceptionCallback_suspend_counts ex (p : Process D) d :
  debugger p = Some d -> is_attached d = false ->
  foreign_debugger p = false ->
  in_guest_code ex p ->
  code_base p + total_size p < 2 ^ addr_bits ->
  forall ptr t, threads p !! ptr = Some t ->
    exists t',
      threads (snd (ExceptionCallback addr_bits OnUnhandledException ex p))
        !! ptr = Some t'
      /\ can_debugger_suspend t' = can_debugger_suspend t
      /\ suspend_count t' =
         suspend_count t
         + (if ptr =? current_thread p then 1
            else if can_debugger_suspend t
                 then N.of_nat (count_occ N.eq_dec (object_table p) ptr)
                 else 0).
Proof.
  intros Hd Ha Hf [Hlo Hhi] Hwrap ptr t Ht. unfold ExceptionCallback.
  rewrite Hd, Ha, Hf. simpl negb. simpl andb. cbv iota.
  replace (code_end addr_bits p) with (code_base p + total_size p)
    by (unfold code_end; rewrite N.mod_small; [reflexivity | exact Hwrap]).
  destruct (N.leb_spec (code_base p) (pc ex)); [|lia].
  destruct (N.ltb_spec (pc ex) (code_base p + total_size p)); [|lia].
  simpl negb. simpl andb. cbv iota zeta.
  change (object_table (effect AcquireDirect p)) with (object_table p).
  change (current_thread (effect AcquireDirect p)) with (current_thread p).
  destruct (sweep_exact (current_thread p) (object_table p)
              (effect AcquireDirect p) ptr t Ht) as (t1 & Hl & Hc & Hn).
  unfold suspendable_other in Hn. cbn [threads effect] in Hn.
  rewrite Ht in Hn. cbn [from_option] in Hn.
  unfold thread_Suspend. cbn [snd threads effect with_threads].
  destruct (N.eqb_spec ptr (current_thread p)) as [->|Hne].
  - exists (Suspend t1). rewrite lookup_alter_eq, Hl.
    split; [reflexivity|]. split; [exact Hc|].
    rewrite N.eqb_refl, andb_false_r in Hn. simpl. lia.
  - exists t1. rewrite lookup_alter_ne by congruence.
    split; [exact Hl|]. split; [exact Hc|].
    destruct (N.eqb_spec (current_thread p) ptr); [congruence|].
    rewrite andb_true_r in Hn. exact Hn.
Qed.

(** X8 An emulator set up without the debug flag has no debugger, and then
    the callback passes every exception on: a process whose debugger is
    the one [Setup] left gets [false] and is not touched, wherever the
    fault is. *)
Theorem Setup_without_debug_flag_no_containment o w af gf idf e ex
    (p : Process D) :
  Lifecycle.FLAGS_debug o = false -> Lifecycle.debugger_ e = None ->
  debugger p
  = Lifecycle.debugger_
      (snd (Lifecycle.run (Lifecycle.Setup o w af gf idf) e)) ->
  ExceptionCallback addr_bits OnUnhandledException ex p = (false, p).
Proof.
  intros Hflag Hnone Hp.
  rewrite (LifecycleFacts.Setup_no_debug_flag o w af gf idf e Hflag Hnone)
    in Hp.
  apply ExceptionCallback_no_debugger_object. exact Hp.
Qed.
End CallbackMore.

Import MoreScenarios.

Lemma ExceptionCallback_debuggers_witness :
  own_debugger_attached process_debugger_attached = true
  /\ ExceptionCallback 32 debugger_handles guest_fault
       process_debugger_attached = (true, process_debugger_attached)
  /\ own_debugger_attached process_foreign_debugger = false
  /\ foreign_debugger process_foreign_debugger = true
  /\ ExceptionCallback 32 debugger_handles guest_fault
       process_foreign_debugger = (false, process_foreign_debugger).
Proof.
  destruct (ExceptionCallback_debuggers 32 debugger_handles guest_fault
              process_debugger_attached) as (Hown & _).
  destruct (ExceptionCallback_debuggers 32 debugger_handles guest_fault
              process_foreign_debugger) as (_ & Hforeign).
  split; [reflexivity|]. split; [exact (Hown eq_refl)|].
  split; [reflexivity|]. split; [reflexivity|].
  exact (Hforeign eq_refl eq_refl).
Defined.

Lemma ExceptionCallback_never_resumes_witness :
  own_debugger_attached process_debugger_idle = false
  /\ fst (ExceptionCallback 32 debugger_declines guest_fault
            process_debugger_idle) = false
  /\ object_table (snd (ExceptionCallback 32 debugger_declines guest_fault
                          process_debugger_idle))
     = object_table process_debugger_idle.
Proof.
  destruct (ExceptionCallback_never_resumes 32 debugger_declines guest_fault
              process_debugger_idle eq_refl)
    as (Hret & _ & _ & _ & _ & _ & Htable & _).
  split; [reflexivity|]. split; [exact Hret | exact Htable].
Defined.

Lemma ExceptionCallback_suspend_counts_witness :
  in_guest_code guest_fault process_listed_twice
  /\ exists t',
       threads (snd (ExceptionCallback 32 debugger_declines guest_fault
                       process_listed_twice)) !! 11 = Some t'
       /\ suspend_count t' = 2.
Proof.
  assert (Hin : in_guest_code guest_fault process_listed_twice)
    by (unfold in_guest_code; simpl; lia).
  split; [exact Hin|].
  destruct (ExceptionCallback_suspend_counts 32 debugger_declines
              guest_fault process_listed_twice {| is_attached := false |}
              eq_refl eq_refl eq_refl Hin eq_refl 11
              {| can_debugger_suspend := true; suspend_count := 0 |}
              eq_refl) as (t' & Hl & _ & Hn).
  exists t'. split; [exact Hl|]. rewrite Hn. reflexivity.
Defined.

Lemma Setup_without_debug_flag_no_containment_witness :
  Lifecycle.FLAGS_debug all_succeed = false
  /\ ExceptionCallback 32 debugger_declines guest_fault process_no_debugger
     = (false, process_no_debugger).
Proof.
  split; [reflexivity|].
  apply (Setup_without_debug_flag_no_containment 32 debugger_declines
           all_succeed the_window (Some audio_factory) graphics_factory
           (Some driver_factory) Lifecycle.fresh guest_fault
           process_no_debugger); reflexivity.
Defined.
End ExceptionFacts.

(** ** Launch resolver and module load chain *)

Module LaunchFacts.
Import Launch.
Local Open Scope Z_scope.

Lemma with_file_system_same {G} (e : Emulator G) :
  with_file_system (file_system_ e) e = e.
Proof. destruct e; reflexivity. Qed.

Lemma launch_results_app evs1 evs2 :
  launch_results (evs1 ++ evs2) = launch_results evs1 ++ launch_results evs2.
Proof. apply omap_app. Qed.

Lemma launched_modules_app evs1 evs2 :
  launched_modules (evs1 ++ evs2)
  = launched_modules evs1 ++ launched_modules evs2.
Proof. apply omap_app. Qed.

Lemma launch_results_announced runs :
  launch_results (LaunchJournal.announced runs) = snd <$> runs.
Proof.
  induction runs as [|[p r] runs IH]; [reflexivity|].
  simpl. unfold launch_results in *. simpl. rewrite IH. reflexivity.
Qed.

Lemma launched_modules_announced runs :
  launched_modules (LaunchJournal.announced runs) = fst <$> runs.
Proof.
  induction runs as [|[p r] runs IH]; [reflexivity|].
  simpl. unfold launched_modules in *. simpl. rewrite IH. reflexivity.
Qed.

Section WithHost.
Context {G : Type}.
Variable host : Host G.

(** One pass: two journal entries, the file system untouched, the
    chaining field read and then blank. *)
Lemma launch_iteration_spec next (e : Emulator G) :
  let r := LaunchModule host next (kernel_state_ e) in
  launch_iteration host next e =
  (launch_path (snd r), fst r,
   {| file_system_ := file_system_ e;
      kernel_state_ := set_launch_path "" (snd r);
      journal := journal e ++ [XELOGI ("Launching module " +:+ next);
                               LaunchModuleCall next (fst r)] |}).
Proof.
  unfold launch_iteration. simpl.
  destruct (LaunchModule host next (kernel_state_ e)) as [r k]. simpl.
  unfold with_kernel_state, emit. simpl.
  rewrite <- app_assoc. reflexivity.
Qed.

(** C10 [CompleteLaunch] with an empty first module path: the loop body
    is never entered, so there is no module launch, the chaining field
    is neither read nor blanked (the emulator is returned as it was),
    and the status is success, from the initial [result = 0]. *)
Theorem CompleteLaunch_empty_module_path fuel path (e : Emulator G) :
  CompleteLaunch host fuel path "" e = Some (X_STATUS_SUCCESS, e).
Proof. destruct fuel; reflexivity. Qed.

(** *** The calls behind a run *)

Import LaunchChain.

Lemma last_call_cons (c c' : Call G) rest :
  last_call c (c' :: rest) = last_call c' rest.
Proof.
  unfold last_call. revert c c'.
  induction rest as [|c'' rest IH]; intros c c'; [reflexivity|].
  change (List.last (c' :: c'' :: rest) c) with (List.last (c'' :: rest) c).
  rewrite !IH. reflexivity.
Qed.

Lemma chain_blank (c : Call G) rest :
  chain host c rest -> Forall (fun c' => launch_path c'.2 = "") rest.
Proof.
  revert c. induction rest as [|c' rest IH]; intros c Hc; [constructor|].
  destruct Hc as (_ & -> & Hc). constructor; [reflexivity|].
  eapply IH, Hc.
Qed.

(** A run of the loop that ends has made a chain of calls, and has
    nothing but them to show. *)
Lemma launch_loop_calls fuel : forall next r0 (e : Emulator G) r e',
  next <> "" ->
  launch_loop host fuel next r0 e = Some (r, e') ->
  exists rest,
    chain host (next, kernel_state_ e) rest
    /\ (length rest < fuel)%nat
    /\ r = returned host (last_call (next, kernel_state_ e) rest)
    /\ e' = after_calls host e (next, kernel_state_ e) rest.
Proof.
  induction fuel as [|fuel IH]; intros next r0 e r e' Hne Hrun;
    simpl in Hrun;
    (destruct (String.eqb_spec next ""); [contradiction|]);
    [discriminate|].
  rewrite launch_iteration_spec in Hrun. cbv zeta in Hrun.
  destruct (String.eqb_spec
              (launch_path (snd (LaunchModule host next (kernel_state_ e))))
              "") as [Heq|Hreq].
  - rewrite Heq in Hrun.
    assert (Hend : forall r1 (e1 : Emulator G),
              launch_loop host fuel "" r1 e1 = Some (r1, e1))
      by (intros; destruct fuel; reflexivity).
    rewrite Hend in Hrun. injection Hrun as <- <-.
    exists []. split; [exact Heq|]. split; [simpl; lia|].
    split; reflexivity.
  - apply IH in Hrun as (rest & Hchain & Hlen & -> & ->); [|exact Hreq].
    cbn [kernel_state_] in Hchain.
    exists ((launch_path (snd (LaunchModule host next (kernel_state_ e))),
             set_launch_path ""
               (snd (LaunchModule host next (kernel_state_ e)))) :: rest).
    split; [split; [exact Hreq|]; split; [reflexivity | exact Hchain]|].
    split; [simpl; lia|].
    rewrite last_call_cons. split; [reflexivity|].
    unfold after_calls. rewrite last_call_cons.
    cbn [file_system_ kernel_state_ journal].
    f_equal. rewrite <- app_assoc. reflexivity.
Qed.

(** A chain of calls is what the loop does, given passes enough. *)
Lemma launch_loop_total rest : forall next r0 (e : Emulator G) fuel,
  next <> "" ->
  chain host (next, kernel_state_ e) rest ->
  (length rest < fuel)%nat ->
  launch_loop host fuel next r0 e
  = Some (returned host (last_call (next, kernel_state_ e) rest),
          after_calls host e (next, kernel_state_ e) rest).
Proof.
  induction rest as [|c rest IH]; intros next r0 e fuel Hne Hchain Hfuel;
    (destruct fuel as [|fuel]; [simpl in Hfuel; lia|]);
    simpl launch_loop;
    (destruct (String.eqb_spec next ""); [contradiction|]);
    rewrite launch_iteration_spec; cbv zeta.
  - simpl in Hchain. unfold requested, left_behind in Hchain.
    cbn [fst snd] in Hchain. rewrite Hchain.
    destruct fuel; reflexivity.
  - destruct Hchain as (Hreq & -> & Hchain).
    unfold requested, left_behind in Hreq, Hchain |- *.
    cbn [fst snd] in Hreq, Hchain |- *.
    rewrite (IH _ _ _ fuel Hreq); [|exact Hchain | simpl in Hfuel; lia].
    cbn [kernel_state_]. rewrite !last_call_cons.
    f_equal. f_equal. unfold after_calls. rewrite !last_call_cons.
    cbn [file_system_ kernel_state_ journal].
    f_equal. rewrite <- app_assoc. reflexivity.
Qed.

Lemma last_returned (c : Call G) rest :
  last (returned host <$> c :: rest)
  = Some (returned host (last_call c rest)).
Proof.
  revert c. induction rest as [|c' rest IH]; intros c; [reflexivity|].
  rewrite last_call_cons, fmap_cons, last_cons, IH. reflexivity.
Qed.

Lemma outcomes_results (calls : list (Call G)) :
  launch_results (LaunchJournal.announced (outcomes host calls))
  = returned host <$> calls.
Proof.
  rewrite launch_results_announced. unfold outcomes.
  induction calls as [|c calls IH]; [reflexivity|].
  simpl. f_equal. exact IH.
Qed.

Lemma outcomes_modules (calls : list (Call G)) :
  launched_modules (LaunchJournal.announced (outcomes host calls))
  = fst <$> calls.
Proof.
  rewrite launched_modules_announced. unfold outcomes.
  induction calls as [|c calls IH]; [reflexivity|].
  simpl. f_equal. exact IH.
Qed.

(** C5 [CompleteLaunch], the status of a chain of launches.  A run that
    ends has made a chain of calls of [LaunchModule], each on the module
    that the call before it requested; the journal has what each call
    returned, and the status is made from what the last call returned
    and from nothing else: success when that is zero, the generic
    unsuccessful status otherwise, whatever the earlier calls returned.
    And whenever the requests of the modules come to an end, so does the
    run, with that status. *)
Theorem CompleteLaunch_status_from_last_result :
  (forall fuel path module_path (e : Emulator G) st e',
     module_path <> "" ->
     CompleteLaunch host fuel path module_path e = Some (st, e') ->
     exists rest evs r,
       chain host (module_path, kernel_state_ e) rest
       /\ journal e' = journal e ++ evs
       /\ launch_results evs
          = (returned host <$> (module_path, kernel_state_ e) :: rest)
       /\ last (launch_results evs) = Some r
       /\ r = returned host (last_call (module_path, kernel_state_ e) rest)
       /\ st = if r =? 0 then X_STATUS_SUCCESS
               else X_STATUS_UNSUCCESSFUL)
  /\ (forall fuel path module_path (e : Emulator G) rest,
        module_path <> "" ->
        chain host (module_path, kernel_state_ e) rest ->
        (length rest < fuel)%nat ->
        exists st e' evs r,
          CompleteLaunch host fuel path module_path e = Some (st, e')
          /\ journal e' = journal e ++ evs
          /\ launch_results evs
             = (returned host <$> (module_path, kernel_state_ e) :: rest)
          /\ last (launch_results evs) = Some r
          /\ r = returned host
                   (last_call (module_path, kernel_state_ e) rest)
          /\ st = if r =? 0 then X_STATUS_SUCCESS
                  else X_STATUS_UNSUCCESSFUL).
Proof.
  split.
  - intros fuel path module_path e st e' Hne Hrun.
    unfold CompleteLaunch in Hrun.
    destruct (launch_loop host fuel module_path 0 e) as [[r e1]|]
      eqn:Hloop; [|discriminate].
    apply launch_loop_calls in Hloop as (rest & Hchain & _ & Hr & He1);
      [|exact Hne].
    exists rest,
      (LaunchJournal.announced
         (outcomes host ((module_path, kernel_state_ e) :: rest))), r.
    rewrite outcomes_results, last_returned, <- Hr.
    assert (He' : e' = e1 /\
                  st = if r =? 0 then X_STATUS_SUCCESS
                       else X_STATUS_UNSUCCESSFUL)
      by (destruct (r =? 0); injection Hrun as <- <-; split; reflexivity).
    destruct He' as (-> & ->). rewrite He1.
    repeat split; try reflexivity; assumption.
  - intros fuel path module_path e rest Hne Hchain Hfuel.
    unfold CompleteLaunch.
    rewrite (launch_loop_total rest module_path 0 e fuel Hne Hchain Hfuel).
    exists (if returned host
                 (last_call (module_path, kernel_state_ e) rest) =? 0
            then X_STATUS_SUCCESS else X_STATUS_UNSUCCESSFUL),
      (after_calls host e (module_path, kernel_state_ e) rest),
      (LaunchJournal.announced
         (outcomes host ((module_path, kernel_state_ e) :: rest))),
      (returned host (last_call (module_path, kernel_state_ e) rest)).
    rewrite outcomes_results, last_returned.
    split; [|repeat split; reflexivity].
    destruct (returned host _ =? 0); reflexivity.
Qed.

(** C6 [CompleteLaunch], the loop and the chaining field.  Each pass
    hands on what it read from the field and leaves the field blank
    before the next test.  So in a run that ends every call after the
    first is made with the field blank, on the module the call before it
    left there, and the field is blank at the end; the journal has one
    launch for each call.  When the modules issue [length rest] requests
    the run ends after one pass more than that.  A single module that
    leaves the field empty gives exactly one pass. *)
Theorem CompleteLaunch_passes_bounded :
  (forall next (e : Emulator G),
     fst (fst (launch_iteration host next e))
       = launch_path (snd (LaunchModule host next (kernel_state_ e)))
     /\ launch_path (kernel_state_ (snd (launch_iteration host next e)))
        = "")
  /\ (forall fuel path module_path (e : Emulator G) st e',
        module_path <> "" ->
        CompleteLaunch host fuel path module_path e = Some (st, e') ->
        exists rest,
          chain host (module_path, kernel_state_ e) rest
          /\ Forall (fun c => launch_path c.2 = "") rest
          /\ journal e'
             = journal e
               ++ LaunchJournal.announced
                    (outcomes host ((module_path, kernel_state_ e) :: rest))
          /\ kernel_state_ e'
             = set_launch_path ""
                 (left_behind host
                    (last_call (module_path, kernel_state_ e) rest))
          /\ launch_path (kernel_state_ e') = ""
          /\ length (launched_modules (drop (length (journal e))
                                         (journal e')))
             = S (length rest))
  /\ (forall fuel path module_path (e : Emulator G) rest,
        module_path <> "" ->
        chain host (module_path, kernel_state_ e) rest ->
        (length rest < fuel)%nat ->
        exists st e' evs,
          CompleteLaunch host fuel path module_path e = Some (st, e')
          /\ journal e' = journal e ++ evs
          /\ launched_modules evs
             = (fst <$> (module_path, kernel_state_ e) :: rest)
          /\ length (launched_modules evs) = S (length rest)
          /\ launch_path (kernel_state_ e') = "")
  /\ (forall fuel path module_path (e : Emulator G),
        module_path <> "" ->
        launch_path
          (snd (LaunchModule host module_path (kernel_state_ e))) = "" ->
        exists st e' evs,
          CompleteLaunch host (S fuel) path module_path e = Some (st, e')
          /\ journal e' = journal e ++ evs
          /\ launched_modules evs = [module_path]).
Proof.
  split; [|split; [|split]].
  - intros next e. rewrite launch_iteration_spec. split; reflexivity.
  - intros fuel path module_path e st e' Hne Hrun.
    unfold CompleteLaunch in Hrun.
    destruct (launch_loop host fuel module_path 0 e) as [[r e1]|]
      eqn:Hloop; [|discriminate].
    apply launch_loop_calls in Hloop as (rest & Hchain & _ & _ & He1);
      [|exact Hne].
    assert (He' : e' = e1) by (destruct (r =? 0); congruence).
    subst e' e1. exists rest.
    split; [exact Hchain|]. split; [exact (chain_blank _ _ Hchain)|].
    cbn [after_calls journal kernel_state_].
    split; [reflexivity|]. split; [reflexivity|]. split; [reflexivity|].
    rewrite drop_app_length, outcomes_modules, length_fmap. reflexivity.
  - intros fuel path module_path e rest Hne Hchain Hfuel.
    unfold CompleteLaunch.
    rewrite (launch_loop_total rest module_path 0 e fuel Hne Hchain Hfuel).
    exists (if returned host
                 (last_call (module_path, kernel_state_ e) rest) =? 0
            then X_STATUS_SUCCESS else X_STATUS_UNSUCCESSFUL),
      (after_calls host e (module_path, kernel_state_ e) rest),
      (LaunchJournal.announced
         (outcomes host ((module_path, kernel_state_ e) :: rest))).
    split; [destruct (returned host _ =? 0); reflexivity|].
    rewrite outcomes_modules, length_fmap. repeat split.
  - intros fuel path module_path e Hne Hempty.
    unfold CompleteLaunch.
    rewrite (launch_loop_total [] module_path 0 e (S fuel) Hne Hempty)
      by (simpl; lia).
    exists (if returned host (module_path, kernel_state_ e) =? 0
            then X_STATUS_SUCCESS else X_STATUS_UNSUCCESSFUL),
      (after_calls host e (module_path, kernel_state_ e) []),
      (LaunchJournal.announced
         (outcomes host [(module_path, kernel_state_ e)])).
    split; [|split; reflexivity].
    change (last_call (module_path, kernel_state_ e) [])
      with (module_path, kernel_state_ e).
    destruct (returned host _ =? 0); reflexivity.
Qed.
(** After a registration that succeeds and the two alias bindings, the
    device is mounted. *)
Lemma mounted_after_links d (e : Emulator G) :
  let fs := snd (RegisterDevice true d (file_system_ e)) in
  mounted d e
    (with_file_system
       (RegisterSymbolicLink "d:" (device_mount_path d)
          (RegisterSymbolicLink "game:" (device_mount_path d) fs))
       (with_file_system
          (RegisterSymbolicLink "game:" (device_mount_path d) fs)
          (with_file_system fs e))).
Proof.
  unfold mounted. simpl. split; [reflexivity|].
  split; [|split; [|split; reflexivity]].
  - rewrite lookup_insert_ne by discriminate. apply lookup_insert_eq.
  - apply lookup_insert_eq.
Qed.

(** C8 the launch target of each variant.  When the device opens and
    registers, it is mounted with [game:] and [d:] bound to its own
    mount point, and the chain is started on ["game:\"] followed by the
    file's own name for a bare module, and on ["game:\default.xex"] for a
    disc image and for a container.  With slash-separated paths the name
    of [/games/foo.xex] is [foo.xex], hence the target
    [game:\foo.xex]. *)
Theorem launch_targets fuel path (e : Emulator G) :
  (let d := HostPathDevice "\Device\Harddisk0\Partition0"
              (find_base_path host path) true in
   device_Initialize host d = true ->
   RegisterDevice_ok host d (file_system_ e) = true ->
   exists e_m, mounted d e e_m
     /\ LaunchXexFile host fuel path e
        = CompleteLaunch host fuel path
            ("game:\" +:+ to_string host (find_name_from_path host path))
            e_m)
  /\ (let d := DiscImageDevice "\Device\Cdrom0" path in
      device_Initialize host d = true ->
      RegisterDevice_ok host d (file_system_ e) = true ->
      exists e_m, mounted d e e_m
        /\ LaunchDiscImage host fuel path e
           = CompleteLaunch host fuel path "game:\default.xex" e_m)
  /\ (let d := StfsContainerDevice "\Device\Cdrom0" path in
      device_Initialize host d = true ->
      RegisterDevice_ok host d (file_system_ e) = true ->
      exists e_m, mounted d e e_m
        /\ LaunchStfsContainer host fuel path e
           = CompleteLaunch host fuel path "game:\default.xex" e_m)
  /\ "game:\" +:+ PathHelpers.to_string
                    (PathHelpers.find_name_from_path slash
                       (L "/games/foo.xex"))
     = "game:\foo.xex".
Proof.
  split; [|split; [|split; [|reflexivity]]]; cbv zeta; intros Hi Hr.
  - unfold LaunchXexFile. rewrite Hi, Hr. simpl negb. cbv iota.
    eexists. split; [|reflexivity].
    apply (mounted_after_links
             (HostPathDevice "\Device\Harddisk0\Partition0"
                (find_base_path host path) true) e).
  - unfold LaunchDiscImage. rewrite Hi, Hr. simpl negb. cbv iota.
    eexists. split; [|reflexivity].
    apply (mounted_after_links (DiscImageDevice "\Device\Cdrom0" path) e).
  - unfold LaunchStfsContainer. rewrite Hi, Hr. simpl negb. cbv iota.
    eexists. split; [|reflexivity].
    apply (mounted_after_links
             (StfsContainerDevice "\Device\Cdrom0" path) e).
Qed.

(** C9 a mount that fails.  When the device does not open or does not
    register, each variant returns the "no such file" status without
    starting the chain: the kernel state and the file system are as
    before and the journal has one more entry, an error log line for a
    bare module and a fatal notice for a disc image and for a
    container. *)
Theorem launch_mount_failure fuel path (e : Emulator G) :
  (let d := HostPathDevice "\Device\Harddisk0\Partition0"
              (find_base_path host path) true in
   device_Initialize host d = false
   \/ RegisterDevice_ok host d (file_system_ e) = false ->
   exists msg,
     LaunchXexFile host fuel path e
     = Some (X_STATUS_NO_SUCH_FILE, emit (XELOGE msg) e))
  /\ (let d := DiscImageDevice "\Device\Cdrom0" path in
      device_Initialize host d = false
      \/ RegisterDevice_ok host d (file_system_ e) = false ->
      exists msg,
        LaunchDiscImage host fuel path e
        = Some (X_STATUS_NO_SUCH_FILE, emit (FatalError msg) e))
  /\ (let d := StfsContainerDevice "\Device\Cdrom0" path in
      device_Initialize host d = false
      \/ RegisterDevice_ok host d (file_system_ e) = false ->
      exists msg,
        LaunchStfsContainer host fuel path e
        = Some (X_STATUS_NO_SUCH_FILE, emit (FatalError msg) e)).
Proof.
  split; [|split]; cbv zeta; intros Hfail.
  - unfold LaunchXexFile.
    destruct (device_Initialize host _); simpl; [|eexists; reflexivity].
    destruct Hfail as [Hi|Hr]; [discriminate|].
    rewrite Hr. simpl. rewrite with_file_system_same.
    eexists; reflexivity.
  - unfold LaunchDiscImage.
    destruct (device_Initialize host _); simpl; [|eexists; reflexivity].
    destruct Hfail as [Hi|Hr]; [discriminate|].
    rewrite Hr. simpl. rewrite with_file_system_same.
    eexists; reflexivity.
  - unfold LaunchStfsContainer.
    destruct (device_Initialize host _); simpl; [|eexists; reflexivity].
    destruct Hfail as [Hi|Hr]; [discriminate|].
    rewrite Hr. simpl. rewrite with_file_system_same.
    eexists; reflexivity.
Qed.

(** *** More about the chain *)



(** X18 When every module leaves a request behind, the loop never ends:
    blanking the field after reading it does not stop a module that asks
    again each time it runs. *)
Theorem CompleteLaunch_persistent_requests :
  (forall p k, launch_path (snd (LaunchModule host p k)) <> "") ->
  forall fuel path module_path (e : Emulator G),
    module_path <> "" ->
    CompleteLaunch host fuel path module_path e = None.
Proof.
  intros Hreq fuel path module_path e Hne. unfold CompleteLaunch.
  assert (Hloop : forall fuel next r0 (e0 : Emulator G),
            next <> "" -> launch_loop host fuel next r0 e0 = None).
  { clear fuel e Hne. intros fuel.
    induction fuel as [|fuel IH]; intros next r0 e0 Hnext; simpl;
      (destruct (String.eqb_spec next ""); [contradiction|]);
      [reflexivity|].
    rewrite launch_iteration_spec. cbv zeta. apply IH, Hreq. }
  rewrite Hloop by exact Hne. reflexivity.
Qed.

(** X19 When no module writes the chaining field, the loop ends after the
    first module, or after one more launch when a request was already in
    the field on entry: that request is served once and not again. *)
Theorem CompleteLaunch_silent_modules :
  (forall p k, launch_path (snd (LaunchModule host p k)) = launch_path k) ->
  forall fuel path module_path (e : Emulator G),
    module_path <> "" -> (2 <= fuel)%nat ->
    exists st e' evs,
      CompleteLaunch host fuel path module_path e = Some (st, e')
      /\ journal e' = journal e ++ evs
      /\ launched_modules evs
         = if String.eqb (launch_path (kernel_state_ e)) ""
           then [module_path]
           else [module_path; launch_path (kernel_state_ e)].
Proof.
  intros Hsilent fuel path module_path e Hne Hfuel.
  destruct fuel as [|[|fuel]]; try lia.
  unfold CompleteLaunch. simpl.
  destruct (String.eqb_spec module_path ""); [contradiction|].
  rewrite launch_iteration_spec. cbv zeta. rewrite Hsilent.
  destruct (String.eqb_spec (launch_path (kernel_state_ e)) "")
    as [Hblank|Hstale].
  - destruct (fst (LaunchModule host module_path (kernel_state_ e)) =? 0);
      eexists _, _, [_; _]; repeat split.
  - rewrite launch_iteration_spec. cbv zeta. cbn [kernel_state_].
    rewrite Hsilent. cbn [launch_path set_launch_path].
    replace (launch_loop host fuel "" _ _) with
      (Some (fst (LaunchModule host (launch_path (kernel_state_ e))
                    (set_launch_path ""
                       (snd (LaunchModule host module_path
                               (kernel_state_ e))))),
             {| file_system_ := file_system_ e;
                kernel_state_ :=
                  set_launch_path ""
                    (snd (LaunchModule host (launch_path (kernel_state_ e))
                            (set_launch_path ""
                               (snd (LaunchModule host module_path
                                       (kernel_state_ e))))));
                journal :=
                  (journal e ++
                   [XELOGI ("Launching module " +:+ module_path);
                    LaunchModuleCall module_path
                      (fst (LaunchModule host module_path
                              (kernel_state_ e)))]) ++
                  [XELOGI ("Launching module "
                           +:+ launch_path (kernel_state_ e));
                   LaunchModuleCall (launch_path (kernel_state_ e))
                     (fst (LaunchModule host (launch_path (kernel_state_ e))
                             (set_launch_path ""
                                (snd (LaunchModule host module_path
                                        (kernel_state_ e))))))] |}))
      by (destruct fuel; reflexivity).
    match goal with |- context [if ?c then _ else _] => destruct c end;
      eexists _, _, [_; _; _; _];
      (split; [reflexivity|]);
      (split; [cbn [journal]; rewrite <- app_assoc; reflexivity|]);
      reflexivity.
Qed.

Lemma CompleteLaunch_status_range fuel path module_path (e : Emulator G)
    st e' :
  CompleteLaunch host fuel path module_path e = Some (st, e') ->
  st = X_STATUS_SUCCESS \/ st = X_STATUS_UNSUCCESSFUL.
Proof.
  unfold CompleteLaunch.
  destruct (launch_loop host fuel module_path 0 e) as [[r e1]|];
    [|discriminate].
  destruct (r =? 0); intros [= <- <-]; auto.
Qed.

Lemma no_such_file_distinct :
  X_STATUS_NO_SUCH_FILE <> X_STATUS_SUCCESS
  /\ X_STATUS_NO_SUCH_FILE <> X_STATUS_UNSUCCESSFUL.
Proof. split; discriminate. Qed.

Local Ltac variant_cases Hrun :=
  destruct (device_Initialize host _); cbn [negb] in Hrun; cbv iota in Hrun;
  [ destruct (RegisterDevice_ok host _ _);
    cbn [RegisterDevice negb] in Hrun; cbv iota in Hrun;
    [ apply CompleteLaunch_status_range in Hrun;
      split; [tauto|]; intros ->;
      destruct no_such_file_distinct; destruct Hrun; congruence
    | injection Hrun as <- <-; split; [tauto|]; intros _;
      split; [reflexivity|]; eexists; eauto ]
  | injection Hrun as <- <-; split; [tauto|]; intros _;
    split; [reflexivity|]; eexists; eauto ].

(** X21 [LaunchPath] returns one of three statuses, and "no such file" means
    that nothing was launched: the kernel state is as before and the
    journal has one more entry, an error line or a fatal notice. *)
Theorem LaunchPath_no_such_file fuel path (e : Emulator G) st e' :
  LaunchPath host fuel path e = Some (st, e') ->
  (st = X_STATUS_SUCCESS \/ st = X_STATUS_UNSUCCESSFUL
   \/ st = X_STATUS_NO_SUCH_FILE)
  /\ (st = X_STATUS_NO_SUCH_FILE ->
        kernel_state_ e' = kernel_state_ e
        /\ exists msg,
             journal e' = journal e ++ [XELOGE msg]
             \/ journal e' = journal e ++ [FatalError msg]).
Proof.
  unfold LaunchPath. intros Hrun.
  destruct (LaunchPath_branch (kPathSeparator host) path).
  - unfold LaunchStfsContainer in Hrun. variant_cases Hrun.
  - unfold LaunchXexFile in Hrun. variant_cases Hrun.
  - unfold LaunchDiscImage in Hrun. variant_cases Hrun.
Qed.
End WithHost.

Import LaunchChain LaunchScenarios MoreLaunchScenarios.

(** The updater fails and hands over to the title, the title succeeds:
    one request, two launches, and the status is success. *)
Lemma CompleteLaunch_status_from_last_result_witness :
  "game:\default.xex" <> ""
  /\ chain handover_host ("game:\default.xex", kernel_state_ (boot []))
       [("game:\title.xex", kernel_state_ (boot []))]
  /\ exists e',
       CompleteLaunch handover_host 2 (L "/games/game.iso")
         "game:\default.xex" (boot [])
       = Some (X_STATUS_SUCCESS, e')
       /\ launch_results (journal e') = [1; 0].
Proof.
  assert (Hne : "game:\default.xex" <> "") by discriminate.
  assert (Hchain :
    chain handover_host ("game:\default.xex", kernel_state_ (boot []))
      [("game:\title.xex", kernel_state_ (boot []))])
    by (split; [discriminate | split; reflexivity]).
  split; [exact Hne|]. split; [exact Hchain|].
  destruct (CompleteLaunch_status_from_last_result handover_host)
    as (_ & Htotal).
  destruct (Htotal 2%nat (L "/games/game.iso") "game:\default.xex"
              (boot []) [("game:\title.xex", kernel_state_ (boot []))]
              Hne Hchain ltac:(simpl; lia))
    as (st & e' & evs & r & Hrun & Hj & Hres & _ & Hr & Hst).
  exists e'. split.
  - rewrite Hrun, Hst, Hr. reflexivity.
  - rewrite Hj, launch_results_app, Hres. reflexivity.
Defined.

Example CompleteLaunch_updater_then_title :
  option_map (fun r => (fst r, launch_results (journal (snd r))))
    (CompleteLaunch (scripted_host true true) 5 (L "/games/game.iso")
       "game:\default.xex" (boot updater_then_title))
  = Some (X_STATUS_SUCCESS, [1; 0]).
Proof. reflexivity. Qed.

Lemma CompleteLaunch_passes_bounded_witness :
  chain handover_host ("game:\default.xex", kernel_state_ (boot []))
    [("game:\title.xex", kernel_state_ (boot []))]
  /\ (exists st e' evs,
        CompleteLaunch handover_host 2 (L "/games/game.iso")
          "game:\default.xex" (boot []) = Some (st, e')
        /\ journal e' = journal (boot []) ++ evs
        /\ launched_modules evs = ["game:\default.xex"; "game:\title.xex"]
        /\ launch_path (kernel_state_ e') = "")
  /\ (exists st e' evs,
        CompleteLaunch (scripted_host true true) 1 (L "/games/foo.xex")
          "game:\foo.xex" (boot [(0, "")]) = Some (st, e')
        /\ journal e' = journal (boot [(0, "")]) ++ evs
        /\ launched_modules evs = ["game:\foo.xex"]).
Proof.
  assert (Hchain :
    chain handover_host ("game:\default.xex", kernel_state_ (boot []))
      [("game:\title.xex", kernel_state_ (boot []))])
    by (split; [discriminate | split; reflexivity]).
  split; [exact Hchain|]. split.
  - destruct (CompleteLaunch_passes_bounded handover_host)
      as (_ & _ & Hbound & _).
    destruct (Hbound 2%nat (L "/games/game.iso") "game:\default.xex"
                (boot []) [("game:\title.xex", kernel_state_ (boot []))]
                ltac:(discriminate) Hchain ltac:(simpl; lia))
      as (st & e' & evs & Hrun & Hj & Hmods & _ & Hblank).
    exists st, e', evs. auto.
  - destruct (CompleteLaunch_passes_bounded (scripted_host true true))
      as (_ & _ & _ & Hsingle).
    apply (Hsingle 0%nat (L "/games/foo.xex") "game:\foo.xex"
             (boot [(0, "")])); [discriminate | reflexivity].
Defined.
Lemma launch_targets_witness :
  device_Initialize (scripted_host true true)
    (HostPathDevice "\Device\Harddisk0\Partition0" (L "/games") true)
  = true
  /\ exists e_m,
       mounted
         (HostPathDevice "\Device\Harddisk0\Partition0" (L "/games") true)
         (boot [(0, "")]) e_m
       /\ LaunchXexFile (scripted_host true true) 2 (L "/games/foo.xex")
            (boot [(0, "")])
          = CompleteLaunch (scripted_host true true) 2
              (L "/games/foo.xex") "game:\foo.xex" e_m.
Proof.
  split; [reflexivity|].
  destruct (launch_targets (scripted_host true true) 2
              (L "/games/foo.xex") (boot [(0, "")])) as (Hxex & _).
  apply Hxex; reflexivity.
Defined.

Example LaunchPath_foo_xex :
  option_map (fun r => (fst r, launched_modules (journal (snd r))))
    (LaunchPath (scripted_host true true) 2 (L "/games/foo.xex")
       (boot [(0, "")]))
  = Some (X_STATUS_SUCCESS, ["game:\foo.xex"]).
Proof. reflexivity. Qed.

Lemma launch_mount_failure_witness :
  (device_Initialize (scripted_host false true)
     (DiscImageDevice "\Device\Cdrom0" (L "/games/game.iso")) = false
   \/ RegisterDevice_ok (scripted_host false true)
        (DiscImageDevice "\Device\Cdrom0" (L "/games/game.iso"))
        (file_system_ (boot [(0, "")])) = false)
  /\ (exists msg,
        LaunchXexFile (scripted_host true false) 2 (L "/games/foo.xex")
          (boot [(0, "")])
        = Some (X_STATUS_NO_SUCH_FILE, emit (XELOGE msg) (boot [(0, "")])))
  /\ (exists msg,
        LaunchDiscImage (scripted_host false true) 2 (L "/games/game.iso")
          (boot [(0, "")])
        = Some (X_STATUS_NO_SUCH_FILE,
                emit (FatalError msg) (boot [(0, "")]))).
Proof.
  split; [left; reflexivity|]. split.
  - destruct (launch_mount_failure (scripted_host true false) 2
                (L "/games/foo.xex") (boot [(0, "")])) as (Hxex & _).
    apply Hxex. right. reflexivity.
  - destruct (launch_mount_failure (scripted_host false true) 2
                (L "/games/game.iso") (boot [(0, "")])) as (_ & Hdisc & _).
    apply Hdisc. left. reflexivity.
Defined.


Example CompleteLaunch_journal_updater_then_title :
  option_map (fun r => journal (snd r))
    (CompleteLaunch (scripted_host true true) 5 (L "/games/game.iso")
       "game:\default.xex" (boot updater_then_title))
  = Some (LaunchJournal.announced
            [("game:\default.xex", 1); ("game:\title.xex", 0)]).
Proof. reflexivity. Qed.

Lemma restarting_always_requests p (k : KernelState Script) :
  launch_path (snd (LaunchModule restarting_host p k)) <> "".
Proof. discriminate. Qed.

Lemma CompleteLaunch_persistent_requests_witness :
  CompleteLaunch restarting_host 1000 (L "/games/game.iso")
    "game:\default.xex" (boot []) = None.
Proof.
  apply (CompleteLaunch_persistent_requests restarting_host
           restarting_always_requests 1000 (L "/games/game.iso")
           "game:\default.xex" (boot [])).
  discriminate.
Defined.

Lemma silent_never_writes p (k : KernelState Script) :
  launch_path (snd (LaunchModule silent_host p k)) = launch_path k.
Proof. reflexivity. Qed.

Lemma CompleteLaunch_silent_modules_witness :
  exists st e' evs,
    CompleteLaunch silent_host 2 (L "/games/game.iso") "game:\default.xex"
      (boot_with_request "game:\stale.xex") = Some (st, e')
    /\ journal e' = journal (boot_with_request "game:\stale.xex") ++ evs
    /\ launched_modules evs = ["game:\default.xex"; "game:\stale.xex"].
Proof.
  apply (CompleteLaunch_silent_modules silent_host silent_never_writes 2
           (L "/games/game.iso") "game:\default.xex"
           (boot_with_request "game:\stale.xex"));
    [discriminate | lia].
Defined.

Lemma LaunchPath_no_such_file_witness :
  exists e',
    LaunchPath (scripted_host false true) 2 (L "/games/game.iso")
      (boot [(0, "")]) = Some (X_STATUS_NO_SUCH_FILE, e')
    /\ kernel_state_ e' = kernel_state_ (boot [(0, "")])
    /\ exists msg,
         journal e' = journal (boot [(0, "")]) ++ [XELOGE msg]
         \/ journal e' = journal (boot [(0, "")]) ++ [FatalError msg].
Proof.
  eexists. split; [reflexivity|].
  apply (LaunchPath_no_such_file (scripted_host false true) 2
           (L "/games/game.iso") (boot [(0, "")]) X_STATUS_NO_SUCH_FILE _
           eq_refl).
  reflexivity.
Defined.
End LaunchFacts.

(** ** Teardown *)

Module TeardownFacts.
Import Lifecycle Teardown.

Lemma never_after_sound earlier later l :
  never_after earlier later l = true ->
  forall l1 l2, l = l1 ++ earlier :: l2 -> later ∉ l2.
Proof.
  induction l as [|x r IH]; intros Hc l1 l2 Hl.
  - destruct l1; discriminate.
  - simpl in Hc. apply andb_prop in Hc as [Hx Hr].
    destruct l1 as [|y l1]; simpl in Hl; injection Hl as -> ->.
    + destruct (decide (earlier = earlier)); [|congruence].
      apply negb_true_iff, bool_decide_eq_false in Hx. exact Hx.
    + apply (IH Hr l1 l2 eq_refl).
Qed.

(** The events of the destructor depend only on which members hold an
    object. *)
Local Ltac by_members e :=
  destruct e as [dw me er de pr au gr inp fs ks cs];
  destruct er, de, pr, au, gr, inp, fs, ks.

(** X9 The destructor can run on an emulator in any state of construction.
    It leaves every member it handles null, does not touch the memory
    object or the display window, and ends, every time, by uninstalling
    the exception hook, which it does exactly once. *)
Theorem Emulator_destructor_releases_all e :
  (forall m, alive (fst (Emulator_destructor e)) m = false)
  /\ memory_ (fst (Emulator_destructor e)) = memory_ e
  /\ display_window_ (fst (Emulator_destructor e)) = display_window_ e
  /\ exists pre,
       snd (Emulator_destructor e) = pre ++ [ExceptionHandler_Uninstall]
       /\ ExceptionHandler_Uninstall ∉ pre.
Proof.
  by_members e; (split; [intros []; reflexivity|]);
    (split; [reflexivity|]); (split; [reflexivity|]);
    eexists;
    (split; [unfold Emulator_destructor; cbv zeta; unfold note at 1;
             cbn [snd]; reflexivity|]);
    apply (bool_decide_eq_false_1 _); vm_compute; reflexivity.
Qed.

(** X10 An object is released only after everything that was handed a pointer
    to it: once [used] has been released, its [user] is neither released
    nor shut down any more. *)
Theorem Emulator_destructor_users_first e user used :
  given_to user used = true ->
  forall l1 l2,
    snd (Emulator_destructor e) = l1 ++ Released used :: l2 ->
    (Released user ∉ l2) /\ (Shutdown user ∉ l2).
Proof.
  intros Hgiven l1 l2 Hsplit.
  split; (eapply never_after_sound; [|exact Hsplit]);
    by_members e; destruct user, used; try discriminate Hgiven;
    vm_compute; reflexivity.
Qed.

(** X11 The debugger session is stopped and the graphics and audio systems are
    shut down while every object is still there: after the first release
    there is no [StopSession] and no [Shutdown]. *)
Theorem Emulator_destructor_quiesces_first e m :
  forall l1 l2,
    snd (Emulator_destructor e) = l1 ++ Released m :: l2 ->
    (StopSession ∉ l2) /\ (forall m', Shutdown m' ∉ l2).
Proof.
  intros l1 l2 Hsplit. split; [|intros m'];
    (eapply never_after_sound; [|exact Hsplit]);
    by_members e; destruct m; try destruct m';
    vm_compute; reflexivity.
Qed.

(** X12 What the destructor tells and releases is exactly what exists: the
    session is stopped when there is a debugger, the graphics and audio
    systems are shut down when they exist (and nothing else is shut down),
    and a member is released when it holds an object. *)
Theorem Emulator_destructor_only_what_exists e :
  (StopSession ∈ snd (Emulator_destructor e) <-> alive e M_debugger = true)
  /\ (forall m, Shutdown m ∈ snd (Emulator_destructor e) <->
        (m = M_graphics_system \/ m = M_audio_system) /\ alive e m = true)
  /\ (forall m, Released m ∈ snd (Emulator_destructor e) <->
        alive e m = true).
Proof.
  split; [|split].
  - rewrite <- (bool_decide_eq_true (_ ∈ _)).
    by_members e; vm_compute; split; intros; congruence.
  - intros m. rewrite <- (bool_decide_eq_true (_ ∈ _)).
    by_members e; destruct m; vm_compute;
      (split; [first [discriminate | auto] | intros [[?|?] ?]; congruence]).
  - intros m. rewrite <- (bool_decide_eq_true (_ ∈ _)).
    by_members e; destruct m; vm_compute; split; intros; congruence.
Qed.

Lemma destructor_shuts_graphics_down e :
  is_Some (graphics_system_ e) ->
  Shutdown M_graphics_system ∈ snd (Emulator_destructor e).
Proof.
  intros Hg. apply (bool_decide_eq_true_1 _).
  by_members e; first [destruct Hg; discriminate | vm_compute; reflexivity].
Qed.

Lemma destructor_uninstalls e :
  ExceptionHandler_Uninstall ∈ snd (Emulator_destructor e).
Proof.
  apply (bool_decide_eq_true_1 _). by_members e; vm_compute; reflexivity.
Qed.

(** X13 A [Setup] that the input system stops, followed by the destructor: the
    graphics system exists but was never set up, and is shut down all the
    same; the exception hook was never installed, and is uninstalled all
    the same. *)
Theorem Setup_failure_then_destructor o w af gf idf e g :
  Memory_Initialize o = true -> Processor_Setup o = true ->
  (forall f, af = Some f -> forall p, is_Some (f p)) ->
  gf tt = Some g -> InputSystem_Setup o <> 0%Z ->
  ExceptionHandler_Install ∉ calls e ->
  graphics_system_ (snd (run (Setup o w af gf idf) e)) = Some g
  /\ (ExceptionHandler_Install ∉ calls (snd (run (Setup o w af gf idf) e)))
  /\ Shutdown M_graphics_system
     ∈ snd (Emulator_destructor (snd (run (Setup o w af gf idf) e)))
  /\ ExceptionHandler_Uninstall
     ∈ snd (Emulator_destructor (snd (run (Setup o w af gf idf) e))).
Proof.
  intros Hm Hp Hsome Hg Hin Hfresh.
  destruct (LifecycleFacts.Setup_input_failure_state o w af gf idf e g
              Hm Hp Hsome Hg Hin Hfresh) as (Hgfx & Hhook).
  split; [exact Hgfx|]. split; [exact Hhook|]. split.
  - apply destructor_shuts_graphics_down. rewrite Hgfx. eexists; reflexivity.
  - apply destructor_uninstalls.
Qed.

Import Scenarios MoreScenarios.

Lemma Emulator_destructor_users_first_witness :
  given_to M_graphics_system M_kernel_state = true
  /\ snd (Emulator_destructor fully_built)
     = [Shutdown M_graphics_system; Shutdown M_audio_system;
        Released M_input_system; Released M_graphics_system;
        Released M_audio_system]
       ++ Released M_kernel_state
          :: [Released M_file_system; Released M_processor;
              Released M_export_resolver; ExceptionHandler_Uninstall]
  /\ (Released M_graphics_system
      ∉ [Released M_file_system; Released M_processor;
         Released M_export_resolver; ExceptionHandler_Uninstall]).
Proof.
  split; [reflexivity|]. split; [reflexivity|].
  apply (Emulator_destructor_users_first fully_built M_graphics_system
           M_kernel_state eq_refl
           [Shutdown M_graphics_system; Shutdown M_audio_system;
            Released M_input_system; Released M_graphics_system;
            Released M_audio_system]
           [Released M_file_system; Released M_processor;
            Released M_export_resolver; ExceptionHandler_Uninstall]
           eq_refl).
Defined.

Lemma Emulator_destructor_quiesces_first_witness :
  snd (Emulator_destructor fully_built)
  = [Shutdown M_graphics_system; Shutdown M_audio_system]
    ++ Released M_input_system
       :: [Released M_graphics_system; Released M_audio_system;
           Released M_kernel_state; Released M_file_system;
           Released M_processor; Released M_export_resolver;
           ExceptionHandler_Uninstall]
  /\ (Shutdown M_audio_system
      ∉ [Released M_graphics_system; Released M_audio_system;
         Released M_kernel_state; Released M_file_system;
         Released M_processor; Released M_export_resolver;
         ExceptionHandler_Uninstall]).
Proof.
  split; [reflexivity|].
  apply (Emulator_destructor_quiesces_first fully_built M_input_system
           [Shutdown M_graphics_system; Shutdown M_audio_system]
           [Released M_graphics_system; Released M_audio_system;
            Released M_kernel_state; Released M_file_system;
            Released M_processor; Released M_export_resolver;
            ExceptionHandler_Uninstall]
           eq_refl).
Defined.

Lemma Setup_failure_then_destructor_witness :
  InputSystem_Setup input_fails <> 0%Z
  /\ graphics_system_
       (snd (run (Setup input_fails the_window (Some audio_factory)
                    graphics_factory (Some driver_factory)) fresh))
     = Some {| graphics_ready := false |}
  /\ Shutdown M_graphics_system
     ∈ snd (Emulator_destructor
              (snd (run (Setup input_fails the_window (Some audio_factory)
                           graphics_factory (Some driver_factory)) fresh))).
Proof.
  assert (Hsome : forall f, Some audio_factory = Some f ->
                    forall p, is_Some (f p))
    by (intros f [= <-] p; eexists; reflexivity).
  assert (Hne : InputSystem_Setup input_fails <> 0%Z) by discriminate.
  destruct (Setup_failure_then_destructor input_fails the_window
              (Some audio_factory) graphics_factory (Some driver_factory)
              fresh {| graphics_ready := false |} eq_refl eq_refl Hsome
              eq_refl Hne (not_elem_of_nil _)) as (Hg & _ & Hs & _).
  split; [exact Hne|]. split; [exact Hg | exact Hs].
Defined.
End TeardownFacts.
